(** * history.py: chat resolution and history normalisation

    A shallow embedding of [src/history.py], the script that resolves a chat
    by name, fetches its history through the Telegram client, normalises each
    message into a flat dictionary and dumps the list as JSON.

    Conventions of the embedding:
    - a Python [str] is a Rocq [string], one character per code point
      (code points below 256);
    - a value that may be [None] is an [option];
    - an uncaught Python exception is the [Raise] case of [result];
    - the Telegram client (the only network collaborator) is a record of
      the answers it gives, see [Remote]; a run in which the client itself
      raises is not described;
    - logging and the final [open]/[write] are left out: [main] returns the
      path and the text it writes. *)

From Stdlib Require Import ZArith Lia ZifyBool Ascii String DecimalString.
From stdpp Require Import base option list sorting strings.

Local Open Scope string_scope.
Local Open Scope list_scope.
Local Open Scope Z_scope.

(** ** Python values and builtins *)

Module Py.

(** The exceptions the script can raise on its own data. *)
Inductive exception :=
| IndexError
| UnboundLocalError (name : string)
| AttributeError (attr : string).

Definition exception_name (e : exception) : string :=
  match e with
  | IndexError => "IndexError"
  | UnboundLocalError _ => "UnboundLocalError"
  | AttributeError _ => "AttributeError"
  end.

Inductive result (A : Type) :=
| Ok (a : A)
| Raise (e : exception).
Arguments Ok {A} a.
Arguments Raise {A} e.

Definition bind {A B} (r : result A) (k : A -> result B) : result B :=
  match r with
  | Ok a => k a
  | Raise e => Raise e
  end.

(** [bool(x)] for a value that is [None] or a [str]. *)
Definition truthy (x : option string) : bool :=
  match x with
  | None => false
  | Some "" => false
  | Some _ => true
  end.

(** [str(x)] for a value that is [None] or a [str]. *)
Definition str (x : option string) : string :=
  match x with
  | None => "None"
  | Some s => s
  end.

(** [repr(n)] for an [int]. *)
Definition repr_int (n : Z) : string := NilZero.string_of_int (Z.to_int n).

(** [sub in s] for two [str]. *)
Fixpoint contains (sub s : string) : bool :=
  String.prefix sub s ||
  match s with
  | EmptyString => false
  | String _ s' => contains sub s'
  end.

(** [l[i]]: a negative index counts from the end, an index out of range
    raises [IndexError]. *)
Definition getitem {A} (l : list A) (i : Z) : result A :=
  let j := if i <? 0 then i + Z.of_nat (length l) else i in
  if j <? 0 then Raise IndexError
  else match l !! Z.to_nat j with
       | Some x => Ok x
       | None => Raise IndexError
       end.

(** [l[:stop]]: a negative [stop] counts from the end. *)
Definition slice_to {A} (l : list A) (stop : Z) : list A :=
  if stop <? 0 then take (Z.to_nat (Z.of_nat (length l) + stop)) l
  else take (Z.to_nat stop) l.

(** [s[:n]] for a [str] and [n >= 0]. *)
Definition str_take (n : nat) (s : string) : string := String.substring 0 n s.

Fixpoint str_map (f : ascii -> ascii) (s : string) : string :=
  match s with
  | EmptyString => EmptyString
  | String c s' => String (f c) (str_map f s')
  end.

(** [s.replace('\n', ' ')]. *)
Definition replace_newline (s : string) : string :=
  str_map (fun c => if Ascii.eqb c "010"%char then " "%char else c) s.

(** [c.isspace()] on the code points below 256. *)
Definition isspace (c : ascii) : bool :=
  let n := Z.of_nat (nat_of_ascii c) in
  ((9 <=? n) && (n <=? 13)) || ((28 <=? n) && (n <=? 32))
  || (n =? 133) || (n =? 160).

Fixpoint lstrip (s : string) : string :=
  match s with
  | EmptyString => EmptyString
  | String c s' => if isspace c then lstrip s' else s
  end.

Fixpoint rstrip (s : string) : string :=
  match s with
  | EmptyString => EmptyString
  | String c s' =>
      match rstrip s' with
      | EmptyString => if isspace c then EmptyString else String c EmptyString
      | t => String c t
      end
  end.

(** [s.strip()]. *)
Definition strip (s : string) : string := rstrip (lstrip s).

(** *** [sorted(l, key=...)]

    Python's [sorted] is a stable sort that only asks [key(a) < key(b)].
    The result of a stable sort does not depend on the algorithm (see
    [stable_sort_unique] below), so insertion from the left stands for it:
    each element goes behind every element already placed that is not
    greater. *)
Section Sorted.
Context {A K : Type} (key : A -> K) (lt : K -> K -> bool).

Fixpoint insort (x : A) (l : list A) : list A :=
  match l with
  | [] => [x]
  | y :: l' => if lt (key x) (key y) then x :: l else y :: insort x l'
  end.

Definition sorted (l : list A) : list A :=
  foldl (fun acc x => insort x acc) [] l.

(** [x] may stand before [y] in a sorted list: [key y < key x] is false. *)
Definition key_le (x y : A) : Prop := lt (key y) (key x) = false.
End Sorted.

(** Comparison of two tuples of [int], as [datetime] compares its fields. *)
Fixpoint tuple_lt (a b : list Z) : bool :=
  match a, b with
  | [], [] => false
  | [], _ :: _ => true
  | _ :: _, [] => false
  | x :: a', y :: b' => (x <? y) || ((x =? y) && tuple_lt a' b')
  end.

(** *** [datetime]

    The client hands out timezone-aware datetimes that all carry the same
    [tzinfo] (UTC); such values compare field by field. *)
Record datetime := {
  year : Z; month : Z; day : Z;
  hour : Z; minute : Z; second : Z; microsecond : Z
}.

Definition fields (d : datetime) : list Z :=
  [year d; month d; day d; hour d; minute d; second d; microsecond d].

Definition datetime_lt (a b : datetime) : bool := tuple_lt (fields a) (fields b).

Definition pad (width : nat) (n : Z) : string :=
  let s := repr_int n in
  String.concat "" (replicate (width - String.length s) "0") +:+ s.

(** [d.strftime('%Y-%m-%d %H:%M:%S')]; [%Y] is written with four digits, as
    the documentation of [strftime] has it (the C libraries differ below the
    year 1000). *)
Definition strftime (d : datetime) : string :=
  pad 4 (year d) +:+ "-" +:+ pad 2 (month d) +:+ "-" +:+ pad 2 (day d)
  +:+ " " +:+ pad 2 (hour d) +:+ ":" +:+ pad 2 (minute d) +:+ ":" +:+ pad 2 (second d).

End Py.

Import Py.

Notation "'let*' x := r 'in' k" := (bind r (fun x => k))
  (at level 10, x name, r at level 100, k at level 200).

(** ** The [json] encoder, as far as the script uses it *)

Module Json.

(** The values the script stores in a record: [None], an [int] or a [str]. *)
Inductive value :=
| VNone
| VInt (n : Z)
| VStr (s : string).

(** A Python [dict] with [str] keys; it keeps its keys in insertion order,
    and [json.dumps] writes them in that order. *)
Definition dict := list (string * value).

Fixpoint get (k : string) (d : dict) : option value :=
  match d with
  | [] => None
  | (k', v) :: d' => if String.eqb k k' then Some v else get k d'
  end.

Definition keys (d : dict) : list string := map fst d.

Definition quote : string := String "034" EmptyString.
Definition backslash : string := String "092" EmptyString.
Definition newline : string := String "010" EmptyString.

Definition hex_digit (n : Z) : string :=
  String.substring (Z.to_nat n) 1 "0123456789abcdef".

(** One character of [json.encoder.py_encode_basestring_ascii]. *)
Definition escape_char (c : ascii) : string :=
  let n := Z.of_nat (nat_of_ascii c) in
  if n =? 34 then backslash +:+ quote
  else if n =? 92 then backslash +:+ backslash
  else if n =? 10 then backslash +:+ "n"
  else if n =? 13 then backslash +:+ "r"
  else if n =? 9 then backslash +:+ "t"
  else if n =? 12 then backslash +:+ "f"
  else if n =? 8 then backslash +:+ "b"
  else if (32 <=? n) && (n <=? 126) then String c EmptyString
  else backslash +:+ "u00" +:+ hex_digit (n / 16) +:+ hex_digit (n mod 16).

Fixpoint escape (s : string) : string :=
  match s with
  | EmptyString => EmptyString
  | String c s' => escape_char c +:+ escape s'
  end.

Definition dumps_str (s : string) : string := quote +:+ escape s +:+ quote.

Definition dumps_value (v : value) : string :=
  match v with
  | VNone => "null"
  | VInt n => repr_int n
  | VStr s => dumps_str s
  end.

Definition indent4 : string := "    ".

Definition dumps_item (ind : string) (kv : string * value) : string :=
  ind +:+ dumps_str kv.1 +:+ ": " +:+ dumps_value kv.2.

(** [json.dumps(d, indent=4)] for a [dict], written at indentation [ind]. *)
Definition dumps_dict (ind : string) (d : dict) : string :=
  match d with
  | [] => "{}"
  | _ => "{" +:+ newline
         +:+ String.concat ("," +:+ newline) (map (dumps_item (ind +:+ indent4)) d)
         +:+ newline +:+ ind +:+ "}"
  end.

(** [json.dumps(l, indent=4)] for a [list] of [dict]. *)
Definition dumps (l : list dict) : string :=
  match l with
  | [] => "[]"
  | _ => "[" +:+ newline
         +:+ String.concat ("," +:+ newline)
               (map (fun d => indent4 +:+ dumps_dict indent4 d) l)
         +:+ newline +:+ "]"
  end.

End Json.

Import Json.

(** ** What the Telegram client hands to the script *)

(** [message.sender]: a [telethon.tl.types.User], a
    [telethon.tl.types.Channel], or anything else ([None], a basic group,
    ...); of the latter only the [username] attribute matters, when the
    object has one. *)
Inductive Sender :=
| User (first_name last_name username : option string)
| Channel (title : string) (username : option string)
| Other (username : option (option string)).

(** A message as the client returns it. [message] is the raw body, [None]
    for a message that has none (a service message); [text] is the body as
    the client renders it, read only for the preview of a candidate chat,
    which is modelled for messages that have a text; [voice] says whether
    [message.voice] is truthy. *)
Module Message.
Record t := {
  id : Z;
  date : datetime;
  chat_id : Z;
  sender : Sender;
  sender_id : option Z;
  message : option string;
  text : string;
  voice : bool;
  views : option Z;
  reply_to_msg_id : option Z
}.
End Message.

Module Dialog.
Record t := { id : Z; name : string }.
End Dialog.

(** The client, reduced to the answers it gives during one run. The script
    parses [offset_date] with [datetime.strptime(offset_date, '%Y-%m-%d')]
    before it asks for the history; the answer is indexed here by the text
    that is parsed, and a text that [strptime] rejects is outside the model. *)
Record Remote := {
  (** [client.get_dialogs()] *)
  get_dialogs : list Dialog.t;
  (** [client.get_messages(chat_id, limit=limit)] *)
  get_messages : Z -> Z -> list Message.t;
  (** [client.get_messages(channel_id, limit=limit, offset_date=offset_date, reverse=True)] *)
  get_messages_reverse : Z -> Z -> string -> list Message.t
}.

(** The command line, after [argparse]. *)
Record Args := {
  chat_name : string;
  file : string;
  limit : Z;
  offset_date : string
}.

#[global] Instance datetime_eq_dec : EqDecision datetime.
Proof. solve_decision. Defined.

(** ** The script *)

Definition get_channel_history (remote : Remote) (args : Args) (channel_id : Z)
  : list Message.t :=
  get_messages_reverse remote channel_id (limit args) (offset_date args).

Definition list_all_chats (remote : Remote) : list Dialog.t := get_dialogs remote.

Definition get_messages_by_chat_id (remote : Remote) (chat_id : Z) (limit : Z)
  : list Message.t :=
  get_messages remote chat_id limit.

(** The line printed for candidate number [i] (counted from 0). *)
Definition candidate_line (remote : Remote) (i : nat) (chat : Dialog.t) : string :=
  let last_message := get_messages_by_chat_id remote (Dialog.id chat) 1 in
  let last_message_text :=
    match last_message with
    | m :: _ => strip (replace_newline (str_take 20 (Message.text m)))
    | [] => "No messages"
    end in
  "[bold]" +:+ repr_int (Z.of_nat i + 1) +:+ ". " +:+ Dialog.name chat
  +:+ "[/bold] - Last message: " +:+ last_message_text.

(** [find_chat_by_name]: what it prints, and what it returns or raises.
    [choice] is the number read from the console, [int(input(...))]. *)
Definition find_chat_by_name (remote : Remote) (chat_name : string) (choice : Z)
  : list string * result Dialog.t :=
  let chats := list_all_chats remote in
  let found_chats := filter (fun chat => contains chat_name (Dialog.name chat)) chats in
  if 1 <? Z.of_nat (length found_chats) then
    ("More than one chat found. Please choose the chat to retrieve:"
       :: imap (candidate_line remote) found_chats,
     getitem found_chats (choice - 1))
  else
    ([], getitem found_chats 0).

(** The two local variables of [main] that survive from one iteration of the
    loop to the next; [None] while the variable is unbound. *)
Record locals := {
  sender_type : option string;
  sender_name : option string
}.

Definition unbound : locals := {| sender_type := None; sender_name := None |}.

(** Reading a local variable. *)
Definition load (name : string) (x : option string) : result string :=
  match x with
  | Some v => Ok v
  | None => Raise (UnboundLocalError name)
  end.

(** [message.sender.username] *)
Definition sender_username (s : Sender) : result (option string) :=
  match s with
  | User _ _ username => Ok username
  | Channel _ username => Ok username
  | Other (Some username) => Ok username
  | Other None => Raise (AttributeError "username")
  end.

Definition opt_int (x : option Z) : value :=
  match x with
  | Some n => VInt n
  | None => VNone
  end.

Definition opt_str (x : option string) : value :=
  match x with
  | Some s => VStr s
  | None => VNone
  end.

(** How one iteration of the loop ends. *)
Inductive flow :=
| Continue
| Append (formatted_message : dict)
| Abort (e : exception).

(** Lines 190-202: the sender branches. There is no [else]: a sender that
    is neither a [User] nor a [Channel] leaves the locals as they are. The
    result says whether the iteration goes on ([true]) or hits [continue]
    ([false]). *)
Definition sender_branches (loc : locals) (s : Sender) : locals * bool :=
  match s with
  | User first_name last_name _ =>
      let loc := {| sender_type := Some "user"; sender_name := sender_name loc |} in
      if truthy first_name && truthy last_name then
        ({| sender_type := sender_type loc;
            sender_name := Some (str first_name +:+ " " +:+ str last_name) |}, true)
      else if truthy first_name && negb (truthy last_name) then
        ({| sender_type := sender_type loc; sender_name := Some (str first_name) |}, true)
      else if negb (truthy first_name) && truthy last_name then
        ({| sender_type := sender_type loc; sender_name := Some (str last_name) |}, true)
      else
        (loc, false)
  | Channel title _ =>
      ({| sender_type := Some "channel"; sender_name := Some title |}, true)
  | Other _ => (loc, true)
  end.

(** Lines 212-225: the dictionary display, evaluated item by item. *)
Definition format_message (chat : Dialog.t) (loc : locals) (message : Message.t)
    (message_type message_date : string) : result dict :=
  let* sender_type := load "sender_type" (sender_type loc) in
  let* sender_name := load "sender_name" (sender_name loc) in
  let* username := sender_username (Message.sender message) in
  Ok [ ("message_id", VInt (Message.id message));
       ("chat_name", VStr (Dialog.name chat));
       ("date", VStr message_date);
       ("chat_id", VInt (Message.chat_id message));
       ("message_type", VStr message_type);
       ("sender_type", VStr sender_type);
       ("sender_name", VStr sender_name);
       ("sender_username", opt_str username);
       ("sender_id", opt_int (Message.sender_id message));
       ("message", VStr (str (Message.message message)));
       ("views", opt_int (Message.views message));
       ("reply_to_msg_id", opt_int (Message.reply_to_msg_id message)) ].

(** The body of the [for] loop of [main]. [json.dumps] accepts every
    [value], so the [except] branch of the [try] is never taken here. *)
Definition loop_body (chat : Dialog.t) (loc : locals) (message : Message.t)
  : locals * flow :=
  let '(loc, go_on) := sender_branches loc (Message.sender message) in
  if go_on then
    let message_type := if Message.voice message then "voice" else "text" in
    let message_date := strftime (Message.date message) in
    match format_message chat loc message message_type message_date with
    | Ok formatted_message =>
        let json_message := dumps_dict "" formatted_message in
        (loc, Append formatted_message)
    | Raise e => (loc, Abort e)
    end
  else (loc, Continue).

(** The [for] loop of [main], from the locals [loc] and the list [messages]
    built so far. *)
Fixpoint main_loop (chat : Dialog.t) (loc : locals) (history : list Message.t)
    (messages : list dict) : result (list dict) :=
  match history with
  | [] => Ok messages
  | message :: history' =>
      match loop_body chat loc message with
      | (loc', Continue) => main_loop chat loc' history' messages
      | (loc', Append formatted_message) =>
          main_loop chat loc' history' (messages ++ [formatted_message])
      | (_, Abort e) => Raise e
      end
  end.

Definition by_date (history : list Message.t) : list Message.t :=
  sorted Message.date datetime_lt history.

(** The messages the loop of [main] runs over, for the chat [chat]. *)
Definition selected_history (remote : Remote) (args : Args) (chat : Dialog.t)
  : list Message.t :=
  let history := get_channel_history remote args (Dialog.id chat) in
  let history := by_date history in
  slice_to history (limit args).

(** The list [messages] at the end of [main]. ([check_api_connection()] is
    called without [await] and so never runs.) *)
Definition main_messages (remote : Remote) (args : Args) (choice : Z)
  : result (list dict) :=
  let* chat := (find_chat_by_name remote (chat_name args) choice).2 in
  main_loop chat unbound (selected_history remote args chat) [].

(** [main]: the path and the text written to it. *)
Definition main (remote : Remote) (args : Args) (choice : Z)
  : result (string * string) :=
  let* messages := main_messages remote args choice in
  let json_messages := dumps messages in
  Ok (file args, json_messages).

(** ** Vocabulary of the properties *)

(** [a] may stand before [b] in a list sorted by date. *)
Definition date_le : relation Message.t := key_le Message.date datetime_lt.

(** The chats whose name contains the query, in listing order. *)
Definition candidates (remote : Remote) (chat_name : string) : list Dialog.t :=
  filter (fun chat => contains chat_name (Dialog.name chat)) (list_all_chats remote).

(** A sender of the [User] kind with neither a first nor a last name. *)
Definition nameless (message : Message.t) : bool :=
  match Message.sender message with
  | User first_name last_name _ => negb (truthy first_name) && negb (truthy last_name)
  | _ => false
  end.

(** A sender that is neither a [User] nor a [Channel]. *)
Definition unrecognized (message : Message.t) : bool :=
  match Message.sender message with
  | Other _ => true
  | _ => false
  end.

(** [formatted_message] is the dictionary built from [message], under some
    binding of the two locals. *)
Definition formats (chat : Dialog.t) (message : Message.t) (formatted_message : dict)
  : Prop :=
  exists loc,
    format_message chat loc message
      (if Message.voice message then "voice" else "text")
      (strftime (Message.date message)) = Ok formatted_message.

(** The messages of the loop that are not skipped by [continue]. *)
Definition kept (history : list Message.t) : list Message.t :=
  filter (fun message => nameless message = false) history.

(** The twelve fields of the record schema. *)
Definition schema_fields : list string :=
  [ "message_id"; "chat_name"; "chat_id"; "date"; "message_type"; "sender_type";
    "sender_name"; "sender_username"; "sender_id"; "message"; "views";
    "reply_to_msg_id" ].


(** ** Sample inputs *)

Definition at_day (d : Z) : datetime :=
  {| year := 2021; month := 1; day := d; hour := 0; minute := 0; second := 0;
     microsecond := 0 |}.

(** A message of chat [-1001] sent on 2021-01-[d]. *)
Definition post (n d : Z) (s : Sender) (body : option string) (is_voice : bool)
  : Message.t :=
  {| Message.id := n; Message.date := at_day d; Message.chat_id := -1001;
     Message.sender := s; Message.sender_id := Some 77; Message.message := body;
     Message.text := default "" body; Message.voice := is_voice; Message.views := Some 5;
     Message.reply_to_msg_id := None |}.

Definition newsco : Dialog.t := {| Dialog.id := -1001; Dialog.name := "NewsCo" |}.
Definition newsroom : Dialog.t := {| Dialog.id := -1002; Dialog.name := "Newsroom" |}.
Definition family : Dialog.t := {| Dialog.id := 12; Dialog.name := "Family" |}.

Definition newsco_sender : Sender := Channel "NewsCo" (Some "newsco").

(** A client that lists [dialogs] and answers every history request with
    [history]. *)
Definition client (dialogs : list Dialog.t) (history : list Message.t) : Remote :=
  {| get_dialogs := dialogs;
     get_messages := fun _ _ => [];
     get_messages_reverse := fun _ _ _ => history |}.


(** Three posts fetched out of order. *)
Definition shuffled_client : Remote :=
  client [newsco]
    [ post 3 4 newsco_sender (Some "c") false;
      post 1 2 newsco_sender (Some "a") false;
      post 2 3 newsco_sender (Some "b") false ].

(** A post by a user without a name, then a post by the channel. *)
Definition ghost_post : Message.t :=
  post 1 2 (User None (Some "") (Some "ghost")) (Some "a") false.

Definition ghost_client : Remote :=
  client [newsco] [ghost_post; post 2 3 newsco_sender (Some "b") false].

(** Two posts of the same day fetched behind a later one. *)
Definition tied_client : Remote :=
  client [newsco]
    [ post 9 3 newsco_sender (Some "late") false;
      post 5 2 newsco_sender (Some "first") false;
      post 4 2 newsco_sender (Some "second") false ].


Definition news_args (n : Z) : Args :=
  {| chat_name := "News"; file := "telegram_history-<channel_name>"; limit := n;
     offset_date := "2021-01-01" |}.

(** ** More of the script, and more vocabulary *)

(** Line 147: the preview of a chat's latest message, as [candidate_line]
    computes it. *)
Definition last_message_text (last_message : list Message.t) : string :=
  match last_message with
  | m :: _ => strip (replace_newline (str_take 20 (Message.text m)))
  | [] => "No messages"
  end.

(** The characters of a [str]. *)
Definition chars (s : string) : list ascii := list_ascii_of_string s.


(** The name the sender branches give to a [User] who has one. *)
Definition display_name (first_name last_name : option string) : string :=
  if truthy first_name then
    if truthy last_name then str first_name +:+ " " +:+ str last_name
    else str first_name
  else str last_name.

(** The three exceptions the loop of [main] can raise. *)
Definition loop_errors : list exception :=
  [ UnboundLocalError "sender_type"; UnboundLocalError "sender_name";
    AttributeError "username" ].

(** The datetimes whose fields [strftime] writes with four and two digits
    on every platform; the client's dates are among them. *)
Definition in_range (d : datetime) : bool :=
  (1000 <=? year d) && (year d <=? 9999) && (1 <=? month d) && (month d <=? 12)
  && (1 <=? day d) && (day d <=? 31) && (0 <=? hour d) && (hour d <=? 23)
  && (0 <=? minute d) && (minute d <=? 59) && (0 <=? second d) && (second d <=? 59).

(** The fields of a [datetime] that [strftime] writes. *)
Definition to_the_second (d : datetime) : list Z :=
  [year d; month d; day d; hour d; minute d; second d].

(** Three-way comparison of two tuples of [int]. *)
Fixpoint tuple_compare (a b : list Z) : comparison :=
  match a, b with
  | [], [] => Eq
  | [], _ :: _ => Lt
  | _ :: _, [] => Gt
  | x :: a', y :: b' =>
      match x ?= y with
      | Eq => tuple_compare a' b'
      | c => c
      end
  end.

(** [s1 <= s2] for two [str]: code point by code point. *)
Definition str_le (s1 s2 : string) : Prop := String.leb s1 s2 = true.

(** *** The offset date *)

Definition code (c : ascii) : Z := Z.of_nat (nat_of_ascii c).

(** [c] is one of the characters [lo] to [hi]. *)
Definition between (lo hi c : ascii) : bool := (code lo <=? code c) && (code c <=? code hi).

Definition digit (c : ascii) : Z := code c - 48.

(** [(?P<Y>\d\d\d\d)]: the year and what follows it. *)
Definition match_Y (s : list ascii) : option (Z * list ascii) :=
  match s with
  | a :: b :: c :: d :: rest =>
      if between "0" "9" a && between "0" "9" b && between "0" "9" c && between "0" "9" d
      then Some (1000 * digit a + 100 * digit b + 10 * digit c + digit d, rest)
      else None
  | _ => None
  end.

(** A literal [-]. *)
Definition match_dash (s : list ascii) : option (list ascii) :=
  match s with
  | c :: rest => if Ascii.eqb c "-" then Some rest else None
  | [] => None
  end.

(** [(?P<m>1[0-2]|0[1-9]|[1-9])]: the ways to read a month, in the order in
    which the regular expression tries them. *)
Definition match_m (s : list ascii) : list (Z * list ascii) :=
  match s with
  | a :: b :: rest =>
      (if Ascii.eqb a "1" && between "0" "2" b then [(10 + digit b, rest)] else [])
      ++ (if Ascii.eqb a "0" && between "1" "9" b then [(digit b, rest)] else [])
      ++ (if between "1" "9" a then [(digit a, b :: rest)] else [])
  | [a] => if between "1" "9" a then [(digit a, [])] else []
  | [] => []
  end.

(** [(?P<d>3[0-1]|[1-2]\d|0[1-9]|[1-9]| [1-9])]: the first way to read a day. *)
Definition match_d (s : list ascii) : option (Z * list ascii) :=
  match s with
  | a :: b :: rest =>
      if Ascii.eqb a "3" && between "0" "1" b then Some (30 + digit b, rest)
      else if between "1" "2" a && between "0" "9" b then Some (10 * digit a + digit b, rest)
      else if Ascii.eqb a "0" && between "1" "9" b then Some (digit b, rest)
      else if between "1" "9" a then Some (digit a, b :: rest)
      else if Ascii.eqb a " " && between "1" "9" b then Some (digit b, rest)
      else None
  | [a] => if between "1" "9" a then Some (digit a, []) else None
  | [] => None
  end.

(** The first way to read the month after which [-] and a day follow. *)
Fixpoint match_md (months : list (Z * list ascii)) : option (Z * Z * list ascii) :=
  match months with
  | [] => None
  | (m, rest) :: months' =>
      match match_dash rest with
      | Some rest =>
          match match_d rest with
          | Some (d, rest) => Some (m, d, rest)
          | None => match_md months'
          end
      | None => match_md months'
      end
  end.

Definition is_leap (y : Z) : bool :=
  (y mod 4 =? 0) && (negb (y mod 100 =? 0) || (y mod 400 =? 0)).

Definition days_in_month (y m : Z) : Z :=
  if m =? 2 then (if is_leap y then 29 else 28)
  else if (m =? 4) || (m =? 6) || (m =? 9) || (m =? 11) then 30
  else 31.

(** [datetime.strptime(s, '%Y-%m-%d')], line 119 of [get_channel_history];
    [None] stands for its [ValueError], which ends the run before the
    history is asked for. The regular expression is the one [_strptime]
    builds for this format, matched from the start of the text; text left
    over after the match, the year 0 and a day the month does not have are
    refused. *)
Definition strptime (s : string) : option datetime :=
  match match_Y (chars s) with
  | Some (y, rest) =>
      match match_dash rest with
      | Some rest =>
          match match_md (match_m rest) with
          | Some (m, d, []) =>
              if (1 <=? y) && (d <=? days_in_month y m)
              then Some {| year := y; month := m; day := d; hour := 0; minute := 0;
                           second := 0; microsecond := 0 |}
              else None
          | _ => None
          end
      | None => None
      end
  | None => None
  end.

(** The date the client is asked to start from. *)
Definition offset_datetime (args : Args) : option datetime :=
  strptime (offset_date args).

(** How a run of the script ends: the file is written, an exception of
    [exception] goes uncaught, or [strptime] refuses the offset date with a
    [ValueError]. *)
Inductive outcome :=
| Written (path text : string)
| Uncaught (e : exception)
| OffsetRejected.

(** [main] together with the parse of the offset date, which
    [get_channel_history] does after the chat is resolved and before the
    client is asked for the history. *)
Definition run (remote : Remote) (args : Args) (choice : Z) : outcome :=
  match (find_chat_by_name remote (chat_name args) choice).2 with
  | Raise e => Uncaught e
  | Ok chat =>
      match offset_datetime args with
      | None => OffsetRejected
      | Some _ =>
          match main_loop chat unbound (selected_history remote args chat) [] with
          | Ok messages => Written (file args) (dumps messages)
          | Raise e => Uncaught e
          end
      end
  end.

(** The day of a [datetime], at 00:00:00. *)
Definition midnight (d : datetime) : datetime :=
  {| year := year d; month := month d; day := day d; hour := 0; minute := 0;
     second := 0; microsecond := 0 |}.



(** A client whose chats have a latest message with the text [t]. *)
Definition chatty_client (dialogs : list Dialog.t) (t : string) : Remote :=
  {| get_dialogs := dialogs;
     get_messages := fun _ _ => [post 1 2 newsco_sender (Some t) false];
     get_messages_reverse := fun _ _ _ => [] |}.

Definition alice : Sender := User (Some "Alice") None (Some "alice").
Definition alice_liddell : Sender := User (Some "Alice") (Some "Liddell") None.

(** ** Facts about [sorted] *)

Lemma filter_nil_intro {A} (P : A -> Prop) `{forall x, Decision (P x)} (l : list A) :
  (forall x, x ∈ l -> ~ P x) -> filter P l = [].
Proof.
  induction l as [|x l IH]; intros Hl; [done|].
  rewrite filter_cons_False by (apply Hl; left).
  apply IH. intros z Hz. apply Hl. by right.
Qed.


Section SortedFacts.
Context {A K : Type} `{EqDecision K} (key : A -> K) (lt : K -> K -> bool).
Hypothesis lt_irrefl : forall k, lt k k = false.
Hypothesis lt_trans : forall a b c, lt a b = true -> lt b c = true -> lt a c = true.

Local Abbreviation le := (key_le key lt).
Local Abbreviation same k := (fun x : A => key x = k).

Lemma lt_asym a b : lt a b = true -> lt b a = false.
Proof.
  intros Hab. destruct (lt b a) eqn:Hba; [|done].
  rewrite <- (lt_irrefl a). symmetry. by apply lt_trans with b.
Qed.

Lemma insort_perm x l : insort key lt x l ≡ₚ x :: l.
Proof.
  induction l as [|y l IH]; simpl; [done|].
  destruct (lt (key x) (key y)); [done|].
  rewrite IH. apply Permutation_swap.
Qed.

Lemma sorted_snoc l x : sorted key lt (l ++ [x]) = insort key lt x (sorted key lt l).
Proof. unfold sorted. by rewrite foldl_app. Qed.

Lemma sorted_perm l : sorted key lt l ≡ₚ l.
Proof.
  induction l as [|x l IH] using rev_ind; [done|].
  rewrite sorted_snoc, insort_perm, IH. apply Permutation_cons_append.
Qed.

Lemma insort_strongly_sorted x l :
  StronglySorted le l -> StronglySorted le (insort key lt x l).
Proof.
  induction 1 as [|y l Hl IH Hy]; simpl.
  - repeat constructor.
  - destruct (lt (key x) (key y)) eqn:Hxy.
    + constructor; [by constructor|].
      constructor; [by apply lt_asym|].
      eapply Forall_impl; [exact Hy|]. intros z Hz. unfold key_le in *.
      destruct (lt (key z) (key x)) eqn:Hzx; [|done].
      rewrite <- Hz. symmetry. by apply lt_trans with (key x).
    + constructor; [done|].
      rewrite insort_perm. by constructor.
Qed.

Lemma sorted_strongly_sorted l : StronglySorted le (sorted key lt l).
Proof.
  induction l as [|x l IH] using rev_ind; [constructor|].
  rewrite sorted_snoc. by apply insort_strongly_sorted.
Qed.

(** Inserting [x] puts it behind every element with the same key. *)
Lemma insort_filter k x l :
  StronglySorted le l ->
  filter (same k) (insort key lt x l) = filter (same k) (l ++ [x]).
Proof.
  induction 1 as [|y l Hl IH Hy]; simpl; [done|].
  destruct (lt (key x) (key y)) eqn:Hxy.
  - rewrite (filter_app _ (y :: l) [x]), (filter_cons _ x (y :: l)).
    rewrite (filter_cons _ x []), filter_nil.
    destruct (decide (key x = k)) as [Hk|Hk]; [|by rewrite app_nil_r].
    rewrite filter_nil_intro; [done|].
    intros z Hz Hzk. simpl in Hzk. rewrite Hk in Hxy.
    apply elem_of_cons in Hz as [->|Hz].
    + by rewrite Hzk, lt_irrefl in Hxy.
    + rewrite Forall_forall in Hy. specialize (Hy z Hz). unfold key_le in Hy.
      rewrite Hzk in Hy. congruence.
  - rewrite !filter_cons, IH. by destruct (decide (key y = k)).
Qed.

(** [sorted] is stable: the elements with one key keep their order. *)
Lemma sorted_stable k l : filter (same k) (sorted key lt l) = filter (same k) l.
Proof.
  induction l as [|x l IH] using rev_ind; [done|].
  rewrite sorted_snoc, insort_filter by apply sorted_strongly_sorted.
  by rewrite !filter_app, IH.
Qed.

(** Two sorted lists that hold, for every key, the same elements in the
    same order are equal, when distinct keys are comparable. *)
Hypothesis lt_total : forall a b, lt a b = false -> lt b a = false -> a = b.

Lemma filter_same_head k x l y l' :
  filter (same k) (x :: l) = filter (same k) (y :: l') -> key y = k ->
  y ∈ x :: l.
Proof.
  intros E Hy. rewrite (filter_cons_True _ y) in E by done.
  assert (y ∈ filter (same k) (x :: l)) as Hin by (rewrite E; left).
  by apply list_elem_of_filter in Hin as [_ ?].
Qed.

Lemma strongly_sorted_filter_eq l1 l2 :
  StronglySorted le l1 -> StronglySorted le l2 ->
  (forall k, filter (same k) l1 = filter (same k) l2) -> l1 = l2.
Proof.
  intros Hl1. revert l2.
  induction Hl1 as [|x l1 Hl1 IH Hx]; intros l2 Hl2 Heq.
  - destruct l2 as [|y l2]; [done|].
    specialize (Heq (key y)). by rewrite filter_nil, filter_cons_True in Heq.
  - destruct Hl2 as [|y l2 Hl2 Hy].
    { specialize (Heq (key x)). by rewrite filter_nil, filter_cons_True in Heq. }
    rewrite Forall_forall in Hx. rewrite Forall_forall in Hy.
    assert (lt (key y) (key x) = false) as Hyx.
    { pose proof (filter_same_head _ _ _ _ _ (Heq (key y)) eq_refl) as Hin.
      apply elem_of_cons in Hin as [->|Hin]; [apply lt_irrefl|by apply Hx]. }
    assert (lt (key x) (key y) = false) as Hxy.
    { pose proof (filter_same_head _ _ _ _ _ (eq_sym (Heq (key x))) eq_refl) as Hin.
      apply elem_of_cons in Hin as [->|Hin]; [apply lt_irrefl|by apply Hy]. }
    pose proof (lt_total _ _ Hxy Hyx) as Hk.
    pose proof (Heq (key x)) as E.
    rewrite (filter_cons_True _ x), (filter_cons_True _ y) in E by done.
    injection E as -> _. f_equal. apply IH; [done|]. intros k.
    specialize (Heq k). rewrite !filter_cons in Heq.
    destruct (decide (same k y)); [by injection Heq|done].
Qed.

(** Any stable sort returns what [sorted] returns. *)
Lemma stable_sort_unique l l' :
  StronglySorted le l' ->
  (forall k, filter (same k) l' = filter (same k) l) ->
  l' = sorted key lt l.
Proof.
  intros Hl' Heq. apply strongly_sorted_filter_eq; [done|apply sorted_strongly_sorted|].
  intros k. by rewrite Heq, sorted_stable.
Qed.

End SortedFacts.

(** ** The order of [datetime] *)

Lemma tuple_lt_irrefl a : tuple_lt a a = false.
Proof.
  induction a as [|x a IH]; simpl; [done|].
  rewrite IH, Z.ltb_irrefl. by destruct (x =? x).
Qed.

Lemma tuple_lt_trans a : forall b c,
  tuple_lt a b = true -> tuple_lt b c = true -> tuple_lt a c = true.
Proof.
  induction a as [|x a IH]; intros [|y b] [|z c]; simpl; try done.
  intros Hab Hbc.
  apply orb_true_iff in Hab as [Hab|[Hxy Hab]%andb_true_iff];
    apply orb_true_iff in Hbc as [Hbc|[Hyz Hbc]%andb_true_iff];
    apply orb_true_iff.
  - left. lia.
  - left. lia.
  - left. lia.
  - right. apply andb_true_iff. split; [lia|]. by apply IH with b.
Qed.

Lemma tuple_lt_total a : forall b,
  tuple_lt a b = false -> tuple_lt b a = false -> a = b.
Proof.
  induction a as [|x a IH]; intros [|y b]; simpl; try done.
  intros [Hxy Hab]%orb_false_iff [Hyx Hba]%orb_false_iff.
  assert (x = y) as -> by lia.
  rewrite Z.eqb_refl in Hab, Hba. f_equal. by apply IH.
Qed.

Lemma fields_inj a b : fields a = fields b -> a = b.
Proof. destruct a, b. unfold fields. simpl. intros [= -> -> -> -> -> -> ->]. done. Qed.

Lemma datetime_lt_irrefl d : datetime_lt d d = false.
Proof. apply tuple_lt_irrefl. Qed.

Lemma datetime_lt_trans a b c :
  datetime_lt a b = true -> datetime_lt b c = true -> datetime_lt a c = true.
Proof. apply tuple_lt_trans. Qed.

Lemma datetime_lt_total a b :
  datetime_lt a b = false -> datetime_lt b a = false -> a = b.
Proof. intros Hab Hba. by apply fields_inj, tuple_lt_total. Qed.

(** ** The sort of [main] *)

Lemma by_date_perm history : by_date history ≡ₚ history.
Proof. apply sorted_perm. Qed.

Lemma by_date_sorted history : StronglySorted date_le (by_date history).
Proof.
  apply (sorted_strongly_sorted Message.date datetime_lt);
    [apply datetime_lt_irrefl|apply datetime_lt_trans].
Qed.

Lemma by_date_stable t history :
  filter (fun m => Message.date m = t) (by_date history)
  = filter (fun m => Message.date m = t) history.
Proof.
  apply (sorted_stable Message.date datetime_lt);
    [apply datetime_lt_irrefl|apply datetime_lt_trans].
Qed.

(** [by_date] is what every stable sort by date returns. *)
Lemma by_date_unique history l :
  StronglySorted date_le l ->
  (forall t, filter (fun m => Message.date m = t) l
             = filter (fun m => Message.date m = t) history) ->
  l = by_date history.
Proof.
  apply (stable_sort_unique Message.date datetime_lt);
    [apply datetime_lt_irrefl|apply datetime_lt_trans|apply datetime_lt_total].
Qed.

Lemma slice_to_sublist {A} (l : list A) stop : slice_to l stop `sublist_of` l.
Proof. unfold slice_to. destruct (stop <? 0); apply sublist_take. Qed.

Lemma slice_to_nonneg {A} (l : list A) stop :
  0 <= stop -> slice_to l stop = take (Z.to_nat stop) l.
Proof. intros Hs. unfold slice_to. by rewrite (proj2 (Z.ltb_ge _ _) Hs). Qed.

Lemma strongly_sorted_sublist {A} (R : relation A) l1 l2 :
  l1 `sublist_of` l2 -> StronglySorted R l2 -> StronglySorted R l1.
Proof.
  induction 1 as [|x l1 l2 Hsub IH|x l1 l2 Hsub IH]; intros Hl2; [done|..].
  - apply StronglySorted_cons in Hl2 as [Hx Hl2].
    constructor; [by apply IH|]. rewrite Forall_forall in Hx.
    apply Forall_forall. intros y Hy. eapply Hx, elem_of_sublist; done.
  - apply StronglySorted_cons in Hl2 as [_ Hl2]. by apply IH.
Qed.

Lemma filter_sublist_mono {A} (P : A -> Prop) `{forall x, Decision (P x)} l1 l2 :
  l1 `sublist_of` l2 -> filter P l1 `sublist_of` filter P l2.
Proof.
  induction 1 as [|x l1 l2 Hsub IH|x l1 l2 Hsub IH]; [done|..];
    rewrite !filter_cons; destruct (decide (P x)); auto using sublist_skip, sublist_cons.
Qed.

(** ** The loop of [main] *)

(** The sender branches reach [continue] exactly for a nameless user. *)
Lemma sender_branches_go_on loc message :
  (sender_branches loc (Message.sender message)).2 = negb (nameless message).
Proof.
  unfold nameless, sender_branches.
  destruct (Message.sender message) as [first_name last_name ?| |]; [|done..].
  by destruct (truthy first_name), (truthy last_name).
Qed.

Lemma loop_body_nameless chat loc message :
  nameless message = true ->
  loop_body chat loc message
  = ({| sender_type := Some "user"; sender_name := sender_name loc |}, Continue).
Proof.
  unfold nameless, loop_body, sender_branches.
  destruct (Message.sender message) as [first_name last_name ?| |]; [|done..].
  by destruct (truthy first_name), (truthy last_name).
Qed.

Lemma loop_body_append chat loc message loc' formatted_message :
  loop_body chat loc message = (loc', Append formatted_message) ->
  nameless message = false
  /\ format_message chat loc' message
       (if Message.voice message then "voice" else "text")
       (strftime (Message.date message)) = Ok formatted_message.
Proof.
  unfold loop_body. pose proof (sender_branches_go_on loc message) as Hgo.
  destruct (sender_branches loc (Message.sender message)) as [loc1 go_on].
  simpl in Hgo. destruct go_on; [|done].
  destruct (format_message chat loc1 message _ _) as [d|e] eqn:Hf; [|done].
  intros [= <- <-]. split; [|done]. by destruct (nameless message).
Qed.

Lemma loop_body_continue chat loc message loc' :
  loop_body chat loc message = (loc', Continue) -> nameless message = true.
Proof.
  unfold loop_body. pose proof (sender_branches_go_on loc message) as Hgo.
  destruct (sender_branches loc (Message.sender message)) as [loc1 go_on].
  simpl in Hgo. destruct go_on.
  - by destruct (format_message chat loc1 message _ _).
  - intros _. by destruct (nameless message).
Qed.

(** A run of the loop that ends normally has appended, in order, one
    dictionary for each message that was not skipped. *)
Lemma main_loop_formats chat history : forall loc messages out,
  main_loop chat loc history messages = Ok out ->
  exists records, out = messages ++ records /\ Forall2 (formats chat) (kept history) records.
Proof.
  induction history as [|message history IH]; intros loc messages out; simpl.
  - intros [= <-]. exists []. by rewrite app_nil_r.
  - destruct (loop_body chat loc message) as [loc' [|formatted_message|e]] eqn:Hb;
      [| |done]; intros Hout; apply IH in Hout as (records & -> & Hrec).
    + apply loop_body_continue in Hb. exists records. split; [done|].
      unfold kept. rewrite filter_cons_False by congruence. done.
    + apply loop_body_append in Hb as [Hn Hf]. exists (formatted_message :: records).
      split; [by rewrite <- app_assoc|].
      unfold kept. rewrite filter_cons_True by done.
      constructor; [by exists loc'|done].
Qed.

Lemma main_messages_formats remote args choice chat doc :
  (find_chat_by_name remote (chat_name args) choice).2 = Ok chat ->
  main_messages remote args choice = Ok doc ->
  Forall2 (formats chat) (kept (selected_history remote args chat)) doc.
Proof.
  unfold main_messages. intros -> Hloop. simpl in Hloop.
  by apply main_loop_formats in Hloop as (records & -> & Hrec).
Qed.

Lemma main_messages_chat remote args choice doc :
  main_messages remote args choice = Ok doc ->
  exists chat, (find_chat_by_name remote (chat_name args) choice).2 = Ok chat.
Proof.
  unfold main_messages.
  destruct (find_chat_by_name remote (chat_name args) choice).2 as [chat|e]; [|done].
  by exists chat.
Qed.

(** The dictionary built from a message, item by item. *)
Lemma formats_inv chat message formatted_message :
  formats chat message formatted_message ->
  exists sender_type sender_name username,
    formatted_message =
    [ ("message_id", VInt (Message.id message));
      ("chat_name", VStr (Dialog.name chat));
      ("date", VStr (strftime (Message.date message)));
      ("chat_id", VInt (Message.chat_id message));
      ("message_type", VStr (if Message.voice message then "voice" else "text"));
      ("sender_type", VStr sender_type);
      ("sender_name", VStr sender_name);
      ("sender_username", opt_str username);
      ("sender_id", opt_int (Message.sender_id message));
      ("message", VStr (str (Message.message message)));
      ("views", opt_int (Message.views message));
      ("reply_to_msg_id", opt_int (Message.reply_to_msg_id message)) ].
Proof.
  intros [loc Hf]. unfold format_message in Hf.
  destruct (load "sender_type" (sender_type loc)) as [st|] eqn:?; [|done].
  destruct (load "sender_name" (sender_name loc)) as [sn|] eqn:?; [|done].
  destruct (sender_username (Message.sender message)) as [un|] eqn:?; [|done].
  simpl in Hf. injection Hf as <-. by exists st, sn, un.
Qed.

(** The [message_id] and [date] items of the records of a run. *)
Lemma formats_ids_and_dates chat messages doc :
  Forall2 (formats chat) messages doc ->
  map (get "message_id") doc = map (fun m => Some (VInt (Message.id m))) messages
  /\ map (get "date") doc
     = map (fun m => Some (VStr (strftime (Message.date m)))) messages.
Proof.
  induction 1 as [|message r messages doc Hr _ [IHid IHdate]]; [done|].
  apply formats_inv in Hr as (st & sn & un & ->). simpl.
  by rewrite IHid, IHdate.
Qed.

(** Replaces the record appended by an iteration [Hb] by its items. *)
Ltac record_of Hb :=
  let Hf := fresh "Hf" in
  apply loop_body_append in Hb as [_ Hf];
  apply (fun H => formats_inv _ _ _ (ex_intro _ _ H)) in Hf as (? & ? & ? & ->).

Lemma kept_sorted history :
  StronglySorted date_le history -> StronglySorted date_le (kept history).
Proof. apply strongly_sorted_sublist, sublist_filter. Qed.

Lemma selected_history_sorted remote args chat :
  StronglySorted date_le (selected_history remote args chat).
Proof.
  unfold selected_history.
  eapply strongly_sorted_sublist; [apply slice_to_sublist|apply by_date_sorted].
Qed.

(** ** Chat resolution *)

(** C1 (as amended): when no chat's display name contains the query,
    [find_chat_by_name] prints nothing, returns no chat and fails with
    Python's [IndexError], raised by [found_chats[0]]; the script has no
    error of its own for this case. *)
Theorem find_chat_by_name_no_match remote chat_name choice :
  candidates remote chat_name = [] ->
  find_chat_by_name remote chat_name choice = ([], Raise IndexError).
Proof.
  unfold candidates, find_chat_by_name. by intros ->.
Qed.

Lemma find_chat_by_name_no_match_witness :
  candidates (client [family] []) "News" = []
  /\ find_chat_by_name (client [family] []) "News" 1 = ([], Raise IndexError).
Proof.
  split; [reflexivity|].
  apply (find_chat_by_name_no_match (client [family] []) "News" 1). reflexivity.
Defined.

(** C1 (as stated) fails: with no matching chat the operation fails, but
    the exception is [IndexError], not [NotFoundError]. *)
Lemma no_match_is_not_NotFoundError :
  candidates (client [family] []) "News" = []
  /\ (find_chat_by_name (client [family] []) "News" 1).2 = Raise IndexError
  /\ ~ (exists e, (find_chat_by_name (client [family] []) "News" 1).2 = Raise e
                  /\ exception_name e = "NotFoundError").
Proof.
  split; [reflexivity|]. split; [reflexivity|].
  intros (e & He & Hname). simpl in He. injection He as <-. discriminate Hname.
Qed.



Example find_chat_by_name_second :
  find_chat_by_name (client [newsco; family; newsroom] []) "News" 2
  = ([ "More than one chat found. Please choose the chat to retrieve:";
       "[bold]1. NewsCo[/bold] - Last message: No messages";
       "[bold]2. Newsroom[/bold] - Last message: No messages" ],
     Ok newsroom).
Proof. reflexivity. Qed.

(** Outside the range 1..N the selection follows Python's indexing: 0 and
    negative numbers count from the end, anything else raises. *)
Example find_chat_by_name_out_of_range :
  (find_chat_by_name (client [newsco; family; newsroom] []) "News" 0).2 = Ok newsroom
  /\ (find_chat_by_name (client [newsco; family; newsroom] []) "News" 3).2
     = Raise IndexError
  /\ (find_chat_by_name (client [newsco; family; newsroom] []) "News" (-2)).2
     = Raise IndexError.
Proof. repeat split. Qed.

Example find_chat_by_name_single :
  find_chat_by_name (client [newsco; family] []) "News" 5 = ([], Ok newsco).
Proof. reflexivity. Qed.

(** ** Normalisation of one message *)

(** C6: the record built for a message has [message_type] "voice" exactly
    when the message carries the voice flag, and "text" otherwise. *)
Theorem message_type_voice_iff chat loc message loc' formatted_message :
  loop_body chat loc message = (loc', Append formatted_message) ->
  get "message_type" formatted_message
  = Some (VStr (if Message.voice message then "voice" else "text"))
  /\ (get "message_type" formatted_message = Some (VStr "voice")
      <-> Message.voice message = true)
  /\ (get "message_type" formatted_message = Some (VStr "text")
      <-> Message.voice message = false).
Proof.
  intros Hb. record_of Hb.
  split; [reflexivity|]. simpl. by destruct (Message.voice message).
Qed.

Lemma message_type_voice_iff_witness :
  get "message_type"
    [ ("message_id", VInt 4); ("chat_name", VStr "NewsCo");
      ("date", VStr "2021-01-02 00:00:00"); ("chat_id", VInt (-1001));
      ("message_type", VStr "voice"); ("sender_type", VStr "channel");
      ("sender_name", VStr "NewsCo"); ("sender_username", VStr "newsco");
      ("sender_id", VInt 77); ("message", VStr ""); ("views", VInt 5);
      ("reply_to_msg_id", VNone) ]
  = Some (VStr "voice").
Proof.
  exact (proj1 (message_type_voice_iff newsco unbound
                  (post 4 2 newsco_sender (Some "") true) _ _ eq_refl)).
Defined.

(** C5 (as amended): the [message] field of a record is [str(message.message)]:
    the body itself when the body is a string (so the empty string for an
    empty body, as pure media has), and the text "None" when the body is
    [None]; it is never null. *)
Theorem message_field_is_str_of_body chat loc message loc' formatted_message :
  loop_body chat loc message = (loc', Append formatted_message) ->
  get "message" formatted_message = Some (VStr (str (Message.message message)))
  /\ get "message" formatted_message <> Some VNone
  /\ (forall body, Message.message message = Some body ->
        get "message" formatted_message = Some (VStr body))
  /\ (Message.message message = None ->
        get "message" formatted_message = Some (VStr "None")).
Proof.
  intros Hb. record_of Hb.
  split; [done|]. split; [done|]. simpl. split.
  - by intros body ->.
  - by intros ->.
Qed.

Lemma message_field_is_str_of_body_witness :
  get "message"
    [ ("message_id", VInt 4); ("chat_name", VStr "NewsCo");
      ("date", VStr "2021-01-02 00:00:00"); ("chat_id", VInt (-1001));
      ("message_type", VStr "text"); ("sender_type", VStr "channel");
      ("sender_name", VStr "NewsCo"); ("sender_username", VStr "newsco");
      ("sender_id", VInt 77); ("message", VStr ""); ("views", VInt 5);
      ("reply_to_msg_id", VNone) ]
  = Some (VStr "").
Proof.
  exact (proj1 (proj2 (proj2 (message_field_is_str_of_body newsco unbound
                  (post 4 2 newsco_sender (Some "") false) _ _ eq_refl)))
           "" eq_refl).
Defined.

(** C5 (as stated) fails: a message without a body (a service message, whose
    [message] is [None]) gets the [message] field "None", not the empty
    string. *)
Lemma message_field_of_no_body_is_not_empty :
  exists loc' formatted_message,
    loop_body newsco unbound (post 4 2 newsco_sender None false)
    = (loc', Append formatted_message)
    /\ get "message" formatted_message = Some (VStr "None")
    /\ get "message" formatted_message <> Some (VStr "").
Proof. eexists _, _. split; [reflexivity|]. split; [reflexivity|discriminate]. Qed.

(** C7: every record of the exported document has exactly the twelve
    fields of the schema, each with a value (null included). *)
Theorem every_record_has_all_fields remote args choice doc :
  main_messages remote args choice = Ok doc ->
  Forall (fun formatted_message =>
            keys formatted_message ≡ₚ schema_fields
            /\ forall k, k ∈ schema_fields -> is_Some (get k formatted_message)) doc.
Proof.
  intros Hmain. destruct (main_messages_chat _ _ _ _ Hmain) as [chat Hchat].
  pose proof (main_messages_formats _ _ _ _ _ Hchat Hmain) as Hf.
  eapply Forall2_Forall_r; [exact Hf|]. apply Forall_forall. intros message _ r Hr.
  apply formats_inv in Hr as (st & sn & un & ->). split.
  - unfold keys, schema_fields. simpl.
    do 2 apply perm_skip. apply perm_swap.
  - intros k Hk. unfold schema_fields in Hk.
    repeat (apply elem_of_cons in Hk as [->|Hk]; [by eexists|]).
    by apply elem_of_nil in Hk.
Qed.

Lemma every_record_has_all_fields_witness :
  Forall (fun formatted_message =>
            keys formatted_message ≡ₚ schema_fields
            /\ forall k, k ∈ schema_fields -> is_Some (get k formatted_message))
    [ [ ("message_id", VInt 4); ("chat_name", VStr "NewsCo");
        ("date", VStr "2021-01-02 00:00:00"); ("chat_id", VInt (-1001));
        ("message_type", VStr "text"); ("sender_type", VStr "channel");
        ("sender_name", VStr "NewsCo"); ("sender_username", VStr "newsco");
        ("sender_id", VInt 77); ("message", VStr "hello"); ("views", VInt 5);
        ("reply_to_msg_id", VNone) ] ].
Proof.
  exact (every_record_has_all_fields
           (client [newsco] [post 4 2 newsco_sender (Some "hello") false])
           (news_args 10) 1 _ eq_refl).
Defined.

(** ** The export *)

(** An unrecognised sender never leads to [continue]: the locals are left as
    they were and the dictionary display is evaluated with them. *)
Lemma loop_body_unrecognized chat loc message :
  unrecognized message = true ->
  loop_body chat loc message
  = (loc,
     match format_message chat loc message
             (if Message.voice message then "voice" else "text")
             (strftime (Message.date message)) with
     | Ok formatted_message => Append formatted_message
     | Raise e => Abort e
     end).
Proof.
  unfold unrecognized, loop_body, sender_branches.
  destruct (Message.sender message); [done..|]. intros _.
  by destruct (format_message chat loc message _ _).
Qed.

(** C2 (the code at the failing input): a history whose first message has
    no recognised sender does not lose that message only; the whole run
    stops with [UnboundLocalError] and nothing is written. *)
Theorem unrecognized_sender_aborts_run :
  unrecognized (post 1 2 (Other None) (Some "joined") false) = true
  /\ main (client [newsco]
             [ post 1 2 (Other None) (Some "joined") false;
               post 2 3 newsco_sender (Some "hello") false ])
          (news_args 10) 1
     = Raise (UnboundLocalError "sender_type").
Proof. split; reflexivity. Qed.

(** After a recognised sender the locals are bound: an unrecognised sender
    without a [username] attribute then stops the run with [AttributeError],
    and one with the attribute is exported under the previous sender's type
    and name. *)
Example unrecognized_sender_after_channel :
  main_messages (client [newsco]
                   [ post 1 2 newsco_sender (Some "hello") false;
                     post 2 3 (Other None) (Some "joined") false ])
                (news_args 10) 1
  = Raise (AttributeError "username")
  /\ (exists first second,
        main_messages (client [newsco]
                         [ post 1 2 newsco_sender (Some "hello") false;
                           post 2 3 (Other (Some None)) (Some "joined") false ])
                      (news_args 10) 1
        = Ok [first; second]
        /\ get "message_id" second = Some (VInt 2)
        /\ get "sender_type" second = Some (VStr "channel")
        /\ get "sender_name" second = Some (VStr "NewsCo")).
Proof. split; [reflexivity|]. eexists _, _. repeat split. Qed.

(** C3: when the run produces a document, the fetched messages were sorted
    ascending by date (whatever their order), cut to the first [limit] of
    them, and the records of the document are, in that order, those of the
    messages that were not skipped. *)
Theorem export_sorted_and_truncated remote args choice chat doc :
  (find_chat_by_name remote (chat_name args) choice).2 = Ok chat ->
  main_messages remote args choice = Ok doc ->
  let fetched := get_channel_history remote args (Dialog.id chat) in
  let processed := selected_history remote args chat in
  by_date fetched ≡ₚ fetched
  /\ StronglySorted date_le (by_date fetched)
  /\ processed = slice_to (by_date fetched) (limit args)
  /\ (0 <= limit args ->
      processed = take (Z.to_nat (limit args)) (by_date fetched)
      /\ (length doc <= Z.to_nat (limit args))%nat)
  /\ Forall2 (formats chat) (kept processed) doc
  /\ StronglySorted date_le (kept processed)
  /\ map (get "date") doc
     = map (fun m => Some (VStr (strftime (Message.date m)))) (kept processed).
Proof.
  intros Hchat Hmain fetched processed.
  pose proof (main_messages_formats _ _ _ _ _ Hchat Hmain) as Hdoc.
  split; [apply by_date_perm|]. split; [apply by_date_sorted|].
  split; [done|]. split.
  { intros Hlimit. pose proof (slice_to_nonneg (by_date fetched) _ Hlimit) as Hcut.
    split; [done|]. rewrite <- (Forall2_length _ _ _ Hdoc).
    etransitivity; [apply length_filter|]. fold processed.
    unfold processed, selected_history. fold fetched. rewrite Hcut, length_take. lia. }
  split; [done|]. split; [apply kept_sorted, selected_history_sorted|].
  by apply formats_ids_and_dates in Hdoc as [_ ?].
Qed.

Lemma export_sorted_and_truncated_witness :
  selected_history shuffled_client (news_args 2) newsco
  = [ post 1 2 newsco_sender (Some "a") false; post 2 3 newsco_sender (Some "b") false ]
  /\ exists doc, main_messages shuffled_client (news_args 2) 1 = Ok doc
     /\ Forall2 (formats newsco)
          (kept (selected_history shuffled_client (news_args 2) newsco)) doc.
Proof.
  split; [reflexivity|]. eexists. split; [reflexivity|].
  exact (proj1 (proj2 (proj2 (proj2 (proj2
           (export_sorted_and_truncated shuffled_client (news_args 2) 1 newsco _
              eq_refl eq_refl)))))).
Defined.

(** C4: a message whose sender is a [User] with neither a first nor a last
    name ends its iteration at [continue], and the document holds records
    for the other messages only. *)
Theorem nameless_user_excluded remote args choice chat doc :
  (find_chat_by_name remote (chat_name args) choice).2 = Ok chat ->
  main_messages remote args choice = Ok doc ->
  Forall2 (formats chat) (kept (selected_history remote args chat)) doc
  /\ (forall message, nameless message = true ->
        (message ∉ kept (selected_history remote args chat))
        /\ (forall loc, (loop_body chat loc message).2 = Continue)).
Proof.
  intros Hchat Hmain. split; [exact (main_messages_formats _ _ _ _ _ Hchat Hmain)|].
  intros message Hn. split.
  - unfold kept. rewrite list_elem_of_filter. intros [Hk _]. congruence.
  - intros loc. by rewrite loop_body_nameless.
Qed.

Lemma nameless_user_excluded_witness :
  main_messages ghost_client (news_args 10) 1
  = main_messages (client [newsco] [post 2 3 newsco_sender (Some "b") false])
      (news_args 10) 1
  /\ ghost_post ∉ kept (selected_history ghost_client (news_args 10) newsco).
Proof.
  split; [reflexivity|].
  exact (proj1 (proj2 (nameless_user_excluded ghost_client (news_args 10) 1 newsco _
                         eq_refl eq_refl)
                  ghost_post eq_refl)).
Defined.

(** C10: messages with equal dates stand in the document in the order in
    which they were fetched: the sort leaves them in that order, and the
    messages exported for a date are a subsequence of those fetched for it. *)
Theorem equal_dates_keep_fetch_order remote args choice chat doc :
  (find_chat_by_name remote (chat_name args) choice).2 = Ok chat ->
  main_messages remote args choice = Ok doc ->
  let fetched := get_channel_history remote args (Dialog.id chat) in
  Forall2 (formats chat) (kept (selected_history remote args chat)) doc
  /\ forall t,
       filter (fun m => Message.date m = t) (by_date fetched)
       = filter (fun m => Message.date m = t) fetched
       /\ filter (fun m => Message.date m = t) (kept (selected_history remote args chat))
          `sublist_of` filter (fun m => Message.date m = t) fetched.
Proof.
  intros Hchat Hmain fetched. split; [exact (main_messages_formats _ _ _ _ _ Hchat Hmain)|].
  intros t. split; [apply by_date_stable|].
  rewrite <- (by_date_stable t fetched). apply filter_sublist_mono.
  transitivity (selected_history remote args chat); [apply sublist_filter|].
  apply slice_to_sublist.
Qed.

Lemma equal_dates_keep_fetch_order_witness :
  kept (selected_history tied_client (news_args 10) newsco)
  = [ post 5 2 newsco_sender (Some "first") false;
      post 4 2 newsco_sender (Some "second") false;
      post 9 3 newsco_sender (Some "late") false ]
  /\ filter (fun m => Message.date m = at_day 2)
       (kept (selected_history tied_client (news_args 10) newsco))
     `sublist_of` filter (fun m => Message.date m = at_day 2)
                    (get_channel_history tied_client (news_args 10) (Dialog.id newsco)).
Proof.
  split; [reflexivity|].
  exact (proj2 (proj2 (equal_dates_keep_fetch_order tied_client (news_args 10) 1 newsco _
                         eq_refl eq_refl) (at_day 2))).
Defined.

(** ** Two runs *)




(** ** Checks on the sample inputs *)

Example strftime_sample :
  strftime {| year := 2021; month := 1; day := 2; hour := 13; minute := 5;
              second := 0; microsecond := 0 |} = "2021-01-02 13:05:00".
Proof. reflexivity. Qed.

Example sorted_sample :
  sorted (fun p : Z * string => p.1) Z.ltb
    [(3, "a"); (1, "b"); (3, "c"); (1, "d"); (2, "e")]
  = [(1, "b"); (1, "d"); (2, "e"); (3, "a"); (3, "c")].
Proof. reflexivity. Qed.

Example slice_to_sample :
  slice_to [1; 2; 3] 2 = [1; 2] /\ slice_to [1; 2; 3] 5 = [1; 2; 3]
  /\ slice_to [1; 2; 3] (-1) = [1; 2] /\ slice_to [1; 2; 3] (-7) = [].
Proof. repeat split. Qed.

Example getitem_sample :
  getitem [10; 20; 30] 0 = Ok 10 /\ getitem [10; 20; 30] (-1) = Ok 30
  /\ getitem [10; 20; 30] 3 = Raise IndexError
  /\ getitem [10; 20; 30] (-4) = Raise IndexError.
Proof. repeat split. Qed.

Example main_sample :
  main (client [newsco]
          [ post 2 3 newsco_sender (Some "b") false;
            post 1 2 newsco_sender (Some "a") false ])
       (news_args 1) 1
  = Ok ("telegram_history-<channel_name>",
        String.concat newline
          [ "[";
            "    {";
            "        " +:+ quote +:+ "message_id" +:+ quote +:+ ": 1,";
            "        " +:+ quote +:+ "chat_name" +:+ quote +:+ ": " +:+ quote +:+ "NewsCo" +:+ quote +:+ ",";
            "        " +:+ quote +:+ "date" +:+ quote +:+ ": " +:+ quote +:+ "2021-01-02 00:00:00" +:+ quote +:+ ",";
            "        " +:+ quote +:+ "chat_id" +:+ quote +:+ ": -1001,";
            "        " +:+ quote +:+ "message_type" +:+ quote +:+ ": " +:+ quote +:+ "text" +:+ quote +:+ ",";
            "        " +:+ quote +:+ "sender_type" +:+ quote +:+ ": " +:+ quote +:+ "channel" +:+ quote +:+ ",";
            "        " +:+ quote +:+ "sender_name" +:+ quote +:+ ": " +:+ quote +:+ "NewsCo" +:+ quote +:+ ",";
            "        " +:+ quote +:+ "sender_username" +:+ quote +:+ ": " +:+ quote +:+ "newsco" +:+ quote +:+ ",";
            "        " +:+ quote +:+ "sender_id" +:+ quote +:+ ": 77,";
            "        " +:+ quote +:+ "message" +:+ quote +:+ ": " +:+ quote +:+ "a" +:+ quote +:+ ",";
            "        " +:+ quote +:+ "views" +:+ quote +:+ ": 5,";
            "        " +:+ quote +:+ "reply_to_msg_id" +:+ quote +:+ ": null";
            "    }";
            "]" ]).
Proof. reflexivity. Qed.

(** * Further properties of the script *)

(** ** Substrings *)

Lemma prefix_spec sub s :
  String.prefix sub s = true <-> exists post, s = sub +:+ post.
Proof.
  revert s. induction sub as [|c sub IH]; intros s.
  - destruct s; simpl; (split; [by eexists|done]).
  - destruct s as [|c' s]; simpl.
    + split; [done|]. by intros [post [=]].
    + destruct (ascii_dec c c') as [->|Hne].
      * rewrite IH. split; intros [post Hpost]; exists post; [by rewrite Hpost|].
        by injection Hpost.
      * split; [done|]. intros [post [= ? _]]. done.
Qed.

Lemma contains_unfold sub s :
  contains sub s
  = String.prefix sub s
    || match s with
       | EmptyString => false
       | String _ s' => contains sub s'
       end.
Proof. by destruct s. Qed.

(** [sub in s] holds exactly when [s] is [pre + sub + post]. *)
Lemma contains_spec sub s :
  contains sub s = true <-> exists pre post, s = pre +:+ sub +:+ post.
Proof.
  induction s as [|c s IH]; rewrite contains_unfold.
  - rewrite orb_false_r, prefix_spec. split.
    + intros [post Hpost]. by exists "", post.
    + intros (pre & post & Hs). destruct pre; [by exists post|done].
  - rewrite orb_true_iff, prefix_spec, IH. split.
    + intros [[post Hpost]|(pre & post & ->)].
      * by exists "", post.
      * by exists (String c pre), post.
    + intros (pre & post & Hs). destruct pre as [|c' pre].
      * left. by exists post.
      * right. exists pre, post. simpl in Hs. by injection Hs.
Qed.

Lemma contains_empty s : contains "" s = true.
Proof. apply contains_spec. by exists "", s. Qed.

(** ** More on chat resolution *)

Lemma elem_of_candidates remote query chat :
  chat ∈ candidates remote query
  <-> chat ∈ get_dialogs remote
      /\ exists pre post, Dialog.name chat = pre +:+ query +:+ post.
Proof.
  unfold candidates, list_all_chats. rewrite list_elem_of_filter, <- contains_spec.
  rewrite Is_true_true. tauto.
Qed.

(** X1: when exactly one chat's name contains the query, that chat is
    returned whatever the console would answer, and nothing is printed. *)
Theorem find_chat_by_name_single_match remote query choice chat :
  candidates remote query = [chat] ->
  find_chat_by_name remote query choice = ([], Ok chat).
Proof. unfold candidates, find_chat_by_name. by intros ->. Qed.

Lemma find_chat_by_name_single_match_witness :
  find_chat_by_name (client [family; newsco] []) "News" 7 = ([], Ok newsco).
Proof.
  apply (find_chat_by_name_single_match (client [family; newsco] []) "News" 7 newsco).
  reflexivity.
Defined.





(** X4: a chat that [find_chat_by_name] returns is one of the listed chats,
    and its name is [pre + query + post] for some [pre] and [post]: the
    match is on the exact characters of the query. *)
Theorem find_chat_by_name_sound remote query choice chat :
  (find_chat_by_name remote query choice).2 = Ok chat ->
  chat ∈ get_dialogs remote
  /\ exists pre post, Dialog.name chat = pre +:+ query +:+ post.
Proof.
  intros Hfind. apply elem_of_candidates.
  unfold find_chat_by_name in Hfind. fold (candidates remote query) in Hfind.
  set (found_chats := candidates remote query) in *.
  assert (forall i, getitem found_chats i = Ok chat -> chat ∈ found_chats) as Hget.
  { intros i. unfold getitem.
    destruct (_ <? 0); [done|].
    destruct (found_chats !! _) as [x|] eqn:Hx; [|done].
    intros [= <-]. by eapply list_elem_of_lookup_2. }
  destruct (1 <? Z.of_nat (length found_chats)); simpl in Hfind; by eapply Hget.
Qed.

Lemma find_chat_by_name_sound_witness :
  newsroom ∈ get_dialogs (client [newsco; family; newsroom] [])
  /\ exists pre post, Dialog.name newsroom = pre +:+ "News" +:+ post.
Proof.
  apply (find_chat_by_name_sound (client [newsco; family; newsroom] []) "News" 2 newsroom).
  reflexivity.
Defined.

(** X5: the empty query is contained in every name, so every listed chat is
    a candidate, in listing order. *)
Theorem empty_query_matches_every_chat remote :
  candidates remote "" = get_dialogs remote.
Proof.
  unfold candidates, list_all_chats.
  induction (get_dialogs remote) as [|chat chats IH]; [done|].
  rewrite filter_cons_True by (by rewrite contains_empty). by rewrite IH.
Qed.

(** ** The preview of a candidate chat *)

















Example candidate_line_sample :
  candidate_line
    (chatty_client [newsco] ("   Breaking" +:+ newline +:+ "news: the quick brown fox"))
    0 newsco
  = "[bold]1. NewsCo[/bold] - Last message: Breaking news: th".
Proof. reflexivity. Qed.

(** ** More on the normalisation of one message *)

(** X7: the record of a message from a [User] or a [Channel] carries that
    sender's own type, name and username, whatever earlier iterations left
    in the locals; a user's name is the first and last name joined by a
    space, or the one that is present, and is never empty. *)
Theorem recognized_sender_fields chat loc message loc' formatted_message :
  loop_body chat loc message = (loc', Append formatted_message) ->
  match Message.sender message with
  | User first_name last_name username =>
      get "sender_type" formatted_message = Some (VStr "user")
      /\ get "sender_name" formatted_message
         = Some (VStr (display_name first_name last_name))
      /\ display_name first_name last_name <> ""
      /\ get "sender_username" formatted_message = Some (opt_str username)
  | Channel title username =>
      get "sender_type" formatted_message = Some (VStr "channel")
      /\ get "sender_name" formatted_message = Some (VStr title)
      /\ get "sender_username" formatted_message = Some (opt_str username)
  | Other _ => True
  end.
Proof.
  unfold loop_body, sender_branches, format_message, display_name.
  destruct (Message.sender message) as [first_name last_name username|title username|];
    [| |done].
  - destruct first_name as [[|c first_name]|], last_name as [[|d last_name]|];
      simpl; try done; by intros [= <- <-].
  - simpl. by intros [= <- <-].
Qed.

Lemma recognized_sender_fields_witness :
  get "sender_type"
    [ ("message_id", VInt 4); ("chat_name", VStr "NewsCo");
      ("date", VStr "2021-01-02 00:00:00"); ("chat_id", VInt (-1001));
      ("message_type", VStr "text"); ("sender_type", VStr "user");
      ("sender_name", VStr "Alice Liddell"); ("sender_username", VNone);
      ("sender_id", VInt 77); ("message", VStr "hi"); ("views", VInt 5);
      ("reply_to_msg_id", VNone) ]
  = Some (VStr "user").
Proof.
  exact (proj1 (recognized_sender_fields newsco
                  {| sender_type := Some "channel"; sender_name := Some "NewsCo" |}
                  (post 4 2 alice_liddell (Some "hi") false) _ _ eq_refl)).
Defined.

(** ** More on the export *)



(** The loop stops only at an unrecognised sender, with one of three
    exceptions. *)
Lemma loop_body_abort chat loc message loc' e :
  loop_body chat loc message = (loc', Abort e) ->
  unrecognized message = true /\ e ∈ loop_errors.
Proof.
  unfold unrecognized, loop_body, sender_branches, format_message, loop_errors.
  destruct (Message.sender message) as [first_name last_name username|title username|u].
  - by destruct (truthy first_name), (truthy last_name).
  - done.
  - destruct (sender_type loc), (sender_name loc), u; simpl; intros [= <- <-];
      (split; [done|]); rewrite !elem_of_cons; auto.
Qed.

Lemma main_loop_raises chat history : forall loc messages e,
  main_loop chat loc history messages = Raise e ->
  exists message,
    message ∈ history /\ unrecognized message = true /\ e ∈ loop_errors.
Proof.
  induction history as [|message history IH]; intros loc messages e; simpl; [done|].
  destruct (loop_body chat loc message) as [loc' [|formatted_message|e']] eqn:Hb.
  - intros (m & ? & ?)%IH. exists m. split; [by right|done].
  - intros (m & ? & ?)%IH. exists m. split; [by right|done].
  - intros [= <-]. apply loop_body_abort in Hb. exists message. split; [left|done].
Qed.

Lemma main_loop_recognized chat history loc messages :
  Forall (fun message => unrecognized message = false) history ->
  exists records,
    main_loop chat loc history messages = Ok (messages ++ records)
    /\ Forall2 (formats chat) (kept history) records.
Proof.
  intros Hrec.
  destruct (main_loop chat loc history messages) as [out|e] eqn:Hloop.
  - apply main_loop_formats in Hloop as (records & -> & Hf). by exists records.
  - apply main_loop_raises in Hloop as (m & Hm & Hu & _).
    rewrite Forall_forall in Hrec. specialize (Hrec m Hm). congruence.
Qed.

(** The fields of a record that are copied from the message and the chat. *)
Lemma formats_copies chat message formatted_message :
  formats chat message formatted_message ->
  get "message_id" formatted_message = Some (VInt (Message.id message))
  /\ get "chat_name" formatted_message = Some (VStr (Dialog.name chat))
  /\ get "chat_id" formatted_message = Some (VInt (Message.chat_id message))
  /\ get "sender_id" formatted_message = Some (opt_int (Message.sender_id message))
  /\ get "views" formatted_message = Some (opt_int (Message.views message))
  /\ get "reply_to_msg_id" formatted_message
     = Some (opt_int (Message.reply_to_msg_id message)).
Proof. intros (st & sn & un & ->)%formats_inv. by repeat split. Qed.

(** X8: the document has one record for each message that was processed
    and not skipped, in the same order, and each record carries its
    message's id, chat id, sender id, view count and reply-to id unchanged
    (null for an absent one), under the name of the resolved chat. *)
Theorem document_copies_message_fields remote args choice chat doc :
  (find_chat_by_name remote (chat_name args) choice).2 = Ok chat ->
  main_messages remote args choice = Ok doc ->
  Forall2 (fun message formatted_message =>
             get "message_id" formatted_message = Some (VInt (Message.id message))
             /\ get "chat_name" formatted_message = Some (VStr (Dialog.name chat))
             /\ get "chat_id" formatted_message = Some (VInt (Message.chat_id message))
             /\ get "sender_id" formatted_message
                = Some (opt_int (Message.sender_id message))
             /\ get "views" formatted_message = Some (opt_int (Message.views message))
             /\ get "reply_to_msg_id" formatted_message
                = Some (opt_int (Message.reply_to_msg_id message)))
    (kept (selected_history remote args chat)) doc.
Proof.
  intros Hchat Hmain. eapply Forall2_impl.
  - exact (main_messages_formats _ _ _ _ _ Hchat Hmain).
  - intros message r. apply formats_copies.
Qed.

Lemma document_copies_message_fields_witness :
  exists doc,
    main_messages shuffled_client (news_args 2) 1 = Ok doc
    /\ map (get "message_id") doc = [Some (VInt 1); Some (VInt 2)]
    /\ Forall2 (fun message formatted_message =>
                  get "message_id" formatted_message = Some (VInt (Message.id message))
                  /\ get "chat_name" formatted_message = Some (VStr (Dialog.name newsco))
                  /\ get "chat_id" formatted_message = Some (VInt (Message.chat_id message))
                  /\ get "sender_id" formatted_message
                     = Some (opt_int (Message.sender_id message))
                  /\ get "views" formatted_message = Some (opt_int (Message.views message))
                  /\ get "reply_to_msg_id" formatted_message
                     = Some (opt_int (Message.reply_to_msg_id message)))
         (kept (selected_history shuffled_client (news_args 2) newsco)) doc.
Proof.
  eexists. split; [reflexivity|]. split; [reflexivity|].
  exact (document_copies_message_fields shuffled_client (news_args 2) 1 newsco _
           eq_refl eq_refl).
Defined.

(** Where the offset date parses, [run] ends as [main] does. *)
Lemma run_main remote args choice :
  is_Some (offset_datetime args) ->
  run remote args choice
  = match main remote args choice with
    | Ok (path, text) => Written path text
    | Raise e => Uncaught e
    end.
Proof.
  intros [d Hd]. unfold run, main, main_messages. rewrite Hd.
  destruct (find_chat_by_name remote (chat_name args) choice).2 as [chat|e]; [|done].
  simpl. by destruct (main_loop chat unbound _ []).
Qed.

(** X9: when the chat resolves, the offset date parses and every processed
    message comes from a [User] or a [Channel], the run ends normally: it
    writes, to the path in [args.file], the dump of a document with exactly
    one record for each message that was not skipped. *)
Theorem run_succeeds_on_recognized_senders remote args choice chat :
  (find_chat_by_name remote (chat_name args) choice).2 = Ok chat ->
  is_Some (offset_datetime args) ->
  Forall (fun message => unrecognized message = false)
    (selected_history remote args chat) ->
  exists doc,
    run remote args choice = Written (file args) (dumps doc)
    /\ Forall2 (formats chat) (kept (selected_history remote args chat)) doc
    /\ length doc = length (kept (selected_history remote args chat)).
Proof.
  intros Hchat [d Hd] Hrec.
  destruct (main_loop_recognized chat _ unbound [] Hrec) as (doc & Hloop & Hf).
  exists doc. split; [|split; [done|by rewrite (Forall2_length _ _ _ Hf)]].
  unfold run. by rewrite Hchat, Hd, Hloop.
Qed.

Lemma run_succeeds_on_recognized_senders_witness :
  exists doc,
    run ghost_client (news_args 10) 1 = Written (file (news_args 10)) (dumps doc)
    /\ Forall2 (formats newsco) (kept (selected_history ghost_client (news_args 10) newsco)) doc
    /\ length doc = length (kept (selected_history ghost_client (news_args 10) newsco)).
Proof.
  apply (run_succeeds_on_recognized_senders ghost_client (news_args 10) 1 newsco).
  - reflexivity.
  - eexists. reflexivity.
  - vm_compute. repeat constructor.
Defined.



(** X11: when the chat resolves, the offset date parses and no processed
    message is left after the skips (nothing was fetched, the limit is 0, or
    every sender is a user without a name), the run still ends normally and
    writes the empty list. *)
Theorem run_writes_empty_list remote args choice chat :
  (find_chat_by_name remote (chat_name args) choice).2 = Ok chat ->
  is_Some (offset_datetime args) ->
  kept (selected_history remote args chat) = [] ->
  run remote args choice = Written (file args) "[]".
Proof.
  intros Hchat [d Hd] Hkept.
  destruct (main_loop_recognized chat (selected_history remote args chat) unbound [])
    as (doc & Hloop & Hf).
  - apply Forall_forall. intros m Hm.
    destruct (nameless m) eqn:Hn.
    + unfold nameless in Hn. unfold unrecognized.
      by destruct (Message.sender m).
    + assert (m ∈ kept (selected_history remote args chat)) as Hin
        by (by apply list_elem_of_filter).
      rewrite Hkept in Hin. by apply elem_of_nil in Hin.
  - rewrite Hkept in Hf. apply Forall2_nil_inv_l in Hf as ->.
    unfold run. by rewrite Hchat, Hd, Hloop.
Qed.

Lemma run_writes_empty_list_witness :
  run (client [newsco] [ghost_post]) (news_args 10) 1
  = Written (file (news_args 10)) "[]".
Proof.
  apply (run_writes_empty_list (client [newsco] [ghost_post]) (news_args 10) 1 newsco).
  - reflexivity.
  - eexists. reflexivity.
  - reflexivity.
Defined.

Example run_samples :
  run (client [newsco] [ghost_post])
      {| chat_name := "News"; file := "out.json"; limit := 10;
         offset_date := "2021-01-01 00:00:00" |} 1
  = OffsetRejected
  /\ run (client [family] [ghost_post])
        {| chat_name := "News"; file := "out.json"; limit := 10;
           offset_date := "yesterday" |} 1
     = Uncaught IndexError.
Proof. split; reflexivity. Qed.

(** ** More on the sort and the cut *)

Lemma length_by_date history : length (by_date history) = length history.
Proof. apply Permutation_length, by_date_perm. Qed.

(** X12: when the limit is at least the number of fetched messages, the
    cut removes nothing: the loop runs over all fetched messages, sorted. *)
Theorem limit_above_count_keeps_all remote args chat :
  Z.of_nat (length (get_channel_history remote args (Dialog.id chat))) <= limit args ->
  selected_history remote args chat
  = by_date (get_channel_history remote args (Dialog.id chat))
  /\ selected_history remote args chat
     ≡ₚ get_channel_history remote args (Dialog.id chat).
Proof.
  intros Hlimit.
  assert (selected_history remote args chat
          = by_date (get_channel_history remote args (Dialog.id chat))) as ->.
  { unfold selected_history. rewrite slice_to_nonneg by lia.
    apply take_ge. rewrite length_by_date. lia. }
  split; [done|apply by_date_perm].
Qed.

Lemma limit_above_count_keeps_all_witness :
  selected_history shuffled_client (news_args 3) newsco
  = by_date (get_channel_history shuffled_client (news_args 3) (Dialog.id newsco))
  /\ selected_history shuffled_client (news_args 3) newsco
     ≡ₚ get_channel_history shuffled_client (news_args 3) (Dialog.id newsco).
Proof.
  apply (limit_above_count_keeps_all shuffled_client (news_args 3) newsco).
  vm_compute. discriminate.
Defined.

(** X13: a negative limit is not refused: [history[:limit]] then drops the
    last [-limit] messages of the sorted history (all of them when there are
    no more than that). *)
Theorem negative_limit_drops_newest remote args chat :
  limit args < 0 ->
  selected_history remote args chat
  = take (length (get_channel_history remote args (Dialog.id chat))
          - Z.to_nat (- limit args))
      (by_date (get_channel_history remote args (Dialog.id chat)))
  /\ length (selected_history remote args chat)
     = (length (get_channel_history remote args (Dialog.id chat))
        - Z.to_nat (- limit args))%nat.
Proof.
  intros Hlimit.
  assert (selected_history remote args chat
          = take (length (get_channel_history remote args (Dialog.id chat))
                  - Z.to_nat (- limit args))
              (by_date (get_channel_history remote args (Dialog.id chat)))) as ->.
  { unfold selected_history, slice_to. rewrite (proj2 (Z.ltb_lt _ _) Hlimit).
    f_equal. rewrite length_by_date. lia. }
  split; [done|]. rewrite length_take, length_by_date. lia.
Qed.

Lemma negative_limit_drops_newest_witness :
  selected_history shuffled_client (news_args (-1)) newsco
  = take (length (get_channel_history shuffled_client (news_args (-1)) (Dialog.id newsco))
          - Z.to_nat (- limit (news_args (-1))))
      (by_date (get_channel_history shuffled_client (news_args (-1)) (Dialog.id newsco)))
  /\ length (selected_history shuffled_client (news_args (-1)) newsco)
     = (length (get_channel_history shuffled_client (news_args (-1)) (Dialog.id newsco))
        - Z.to_nat (- limit (news_args (-1))))%nat.
Proof.
  apply (negative_limit_drops_newest shuffled_client (news_args (-1)) newsco).
  reflexivity.
Defined.

(** X14: a history that is already in ascending order of date is left as it
    is by the sort. *)
Theorem by_date_sorted_unchanged history :
  StronglySorted date_le history -> by_date history = history.
Proof. intros Hs. symmetry. by apply by_date_unique. Qed.

Lemma by_date_sorted_unchanged_witness :
  by_date [ post 5 2 newsco_sender (Some "first") false;
            post 4 2 newsco_sender (Some "second") false;
            post 9 3 newsco_sender (Some "late") false ]
  = [ post 5 2 newsco_sender (Some "first") false;
      post 4 2 newsco_sender (Some "second") false;
      post 9 3 newsco_sender (Some "late") false ].
Proof.
  apply by_date_sorted_unchanged.
  repeat (constructor; [|repeat constructor; reflexivity]). constructor.
Defined.

(** X15: sorting twice is sorting once. *)
Theorem by_date_idempotent history : by_date (by_date history) = by_date history.
Proof. symmetry. apply by_date_unique; [apply by_date_sorted|done]. Qed.

Lemma filter_date_unique t (history : list Message.t) :
  NoDup (map Message.date history) ->
  (length (filter (fun m => Message.date m = t) history) <= 1)%nat.
Proof.
  induction history as [|m history IH]; simpl; [lia|].
  intros [Hm Hnd]%NoDup_cons. rewrite filter_cons.
  destruct (decide (Message.date m = t)) as [<-|]; [|by apply IH].
  rewrite filter_nil_intro; [simpl; lia|].
  intros m' Hm' Hd. apply Hm. rewrite <- Hd. by apply list_elem_of_fmap_2.
Qed.

Lemma short_perm_eq {A} (l1 l2 : list A) :
  (length l1 <= 1)%nat -> l1 ≡ₚ l2 -> l1 = l2.
Proof.
  destruct l1 as [|x [|y l1]]; simpl; [| |lia]; intros _ Hp.
  - by apply Permutation_nil_l.
  - by apply Permutation_singleton_l.
Qed.

(** X16: when no two fetched messages have the same date, the order in
    which the client returns them does not matter: two fetches that hold
    the same messages are sorted into the same list. *)
Theorem by_date_order_independent h1 h2 :
  h1 ≡ₚ h2 -> NoDup (map Message.date h1) -> by_date h1 = by_date h2.
Proof.
  intros Hp Hnd. apply by_date_unique; [apply by_date_sorted|].
  intros t. rewrite by_date_stable.
  apply short_perm_eq; [by apply filter_date_unique|]. by rewrite Hp.
Qed.

Lemma by_date_order_independent_witness :
  by_date [ post 3 4 newsco_sender (Some "c") false;
            post 1 2 newsco_sender (Some "a") false;
            post 2 3 newsco_sender (Some "b") false ]
  = by_date [ post 2 3 newsco_sender (Some "b") false;
              post 3 4 newsco_sender (Some "c") false;
              post 1 2 newsco_sender (Some "a") false ].
Proof.
  apply by_date_order_independent.
  - symmetry. apply (Permutation_cons_append [_; _]).
  - apply (bool_decide_unpack _). vm_compute. exact I.
Defined.

(** ** The [date] field as text *)

Lemma compare_app x1 : forall x2 s1 s2,
  String.length x1 = String.length x2 ->
  String.compare (x1 +:+ s1) (x2 +:+ s2)
  = match String.compare x1 x2 with
    | Eq => String.compare s1 s2
    | c => c
    end.
Proof.
  induction x1 as [|c1 x1 IH]; intros [|c2 x2] s1 s2; simpl; try done.
  intros [= Hlen]. destruct (Ascii.compare c1 c2); [|done..]. by apply IH.
Qed.

Lemma ascii_compare_refl c : Ascii.compare c c = Eq.
Proof. unfold Ascii.compare. apply N.compare_refl. Qed.

Lemma compare_sep c s1 s2 :
  String.compare (String c "" +:+ s1) (String c "" +:+ s2) = String.compare s1 s2.
Proof. simpl. by rewrite ascii_compare_refl. Qed.

Lemma string_compare_refl s : String.compare s s = Eq.
Proof. induction s as [|c s IH]; simpl; [done|]. by rewrite ascii_compare_refl. Qed.

Lemma length_append s1 s2 :
  String.length (s1 +:+ s2) = (String.length s1 + String.length s2)%nat.
Proof. induction s1 as [|c s1 IH]; simpl; [done|]. by rewrite IH. Qed.

(** The numbers below 100, written with two digits, compare as text the
    way they compare as numbers (checked number by number). *)
Lemma pad2_check :
  Forall (fun a => String.length (pad 2 a) = 2%nat
            /\ Forall (fun b => String.compare (pad 2 a) (pad 2 b) = (a ?= b))
                 (seqZ 0 100))
    (seqZ 0 100).
Proof. apply (bool_decide_unpack _). vm_compute. exact I. Qed.

(** A number of four digits is written as its two halves. *)
Lemma pad4_check :
  Forall (fun h => Forall (fun l => pad 4 (100 * h + l) = pad 2 h +:+ pad 2 l)
                     (seqZ 0 100))
    (seqZ 10 90).
Proof. apply (bool_decide_unpack _). vm_compute. exact I. Qed.

Lemma length_pad2 a : 0 <= a < 100 -> String.length (pad 2 a) = 2%nat.
Proof.
  intros Ha. pose proof pad2_check as H. rewrite Forall_forall in H.
  apply (H a). apply elem_of_seqZ. lia.
Qed.

Lemma compare_pad2 a b :
  0 <= a < 100 -> 0 <= b < 100 -> String.compare (pad 2 a) (pad 2 b) = (a ?= b).
Proof.
  intros Ha Hb. pose proof pad2_check as H. rewrite Forall_forall in H.
  destruct (H a) as [_ H']; [apply elem_of_seqZ; lia|].
  rewrite Forall_forall in H'. apply H'. apply elem_of_seqZ. lia.
Qed.

Lemma halves_bounds a :
  1000 <= a <= 9999 -> 10 <= a / 100 < 100 /\ 0 <= a mod 100 < 100.
Proof.
  intros Ha. split; [|apply Z.mod_pos_bound; lia].
  split; [apply Z.div_le_lower_bound; lia|apply Z.div_lt_upper_bound; lia].
Qed.

Lemma pad4_split a :
  1000 <= a <= 9999 -> pad 4 a = pad 2 (a / 100) +:+ pad 2 (a mod 100).
Proof.
  intros Ha. destruct (halves_bounds a Ha) as [Hh Hl].
  pose proof pad4_check as Hcheck. rewrite Forall_forall in Hcheck.
  rewrite (Z.div_mod a 100) at 1 by lia.
  specialize (Hcheck (a / 100)). rewrite Forall_forall in Hcheck.
  apply Hcheck; apply elem_of_seqZ; lia.
Qed.

Lemma length_pad4 a : 1000 <= a <= 9999 -> String.length (pad 4 a) = 4%nat.
Proof.
  intros Ha. destruct (halves_bounds a Ha).
  by rewrite pad4_split, length_append, !length_pad2 by lia.
Qed.

Lemma compare_pad4 a b :
  1000 <= a <= 9999 -> 1000 <= b <= 9999 ->
  String.compare (pad 4 a) (pad 4 b) = (a ?= b).
Proof.
  intros Ha Hb. rewrite !pad4_split by done.
  destruct (halves_bounds a Ha), (halves_bounds b Hb).
  rewrite compare_app by (by rewrite !length_pad2 by lia).
  rewrite !compare_pad2 by lia.
  pose proof (Z.div_mod a 100). pose proof (Z.div_mod b 100).
  destruct (Z.compare_spec (a / 100) (b / 100));
    destruct (Z.compare_spec (a mod 100) (b mod 100));
    destruct (Z.compare_spec a b); try done; lia.
Qed.

Lemma in_range_bounds d :
  in_range d = true ->
  1000 <= year d <= 9999 /\ 0 <= month d < 100 /\ 0 <= day d < 100
  /\ 0 <= hour d < 100 /\ 0 <= minute d < 100 /\ 0 <= second d < 100.
Proof. unfold in_range. lia. Qed.

(** The date strings compare as the dates do, to the second. *)
Lemma compare_strftime a b :
  in_range a = true -> in_range b = true ->
  String.compare (strftime a) (strftime b)
  = tuple_compare (to_the_second a) (to_the_second b).
Proof.
  intros (? & ? & ? & ? & ? & ?)%in_range_bounds (? & ? & ? & ? & ? & ?)%in_range_bounds.
  unfold strftime, to_the_second, tuple_compare.
  rewrite compare_app, compare_pad4 by (by rewrite ?length_pad4).
  destruct (year a ?= year b); [|done..].
  rewrite compare_sep, compare_app, compare_pad2 by (by rewrite ?length_pad2).
  destruct (month a ?= month b); [|done..].
  rewrite compare_sep, compare_app, compare_pad2 by (by rewrite ?length_pad2).
  destruct (day a ?= day b); [|done..].
  rewrite compare_sep, compare_app, compare_pad2 by (by rewrite ?length_pad2).
  destruct (hour a ?= hour b); [|done..].
  rewrite compare_sep, compare_app, compare_pad2 by (by rewrite ?length_pad2).
  destruct (minute a ?= minute b); [|done..].
  rewrite compare_sep, compare_pad2 by done. by destruct (second a ?= second b).
Qed.

Lemma tuple_compare_not_gt a b :
  datetime_lt b a = false -> tuple_compare (to_the_second a) (to_the_second b) <> Gt.
Proof.
  unfold datetime_lt, fields, to_the_second. simpl. intros Hlt.
  repeat match goal with
         | |- context [?x ?= ?y] => destruct (Z.compare_spec x y)
         end; try done; lia.
Qed.

Lemma tuple_compare_eq a b :
  tuple_compare (to_the_second a) (to_the_second b) = Eq ->
  to_the_second a = to_the_second b.
Proof.
  unfold to_the_second. simpl.
  repeat match goal with
         | |- context [?x ?= ?y] => destruct (Z.compare_spec x y)
         end; try done; intros _; congruence.
Qed.

Lemma strftime_le a b :
  in_range a = true -> in_range b = true -> datetime_lt b a = false ->
  str_le (strftime a) (strftime b).
Proof.
  intros Ha Hb Hab. unfold str_le, String.leb. rewrite compare_strftime by done.
  apply tuple_compare_not_gt in Hab.
  by destruct (tuple_compare (to_the_second a) (to_the_second b)).
Qed.

Lemma dates_sorted_as_text (history : list Message.t) :
  StronglySorted date_le history ->
  Forall (fun m => in_range (Message.date m) = true) history ->
  StronglySorted str_le (map (fun m => strftime (Message.date m)) history).
Proof.
  induction 1 as [|m history Hs IH Hm]; intros Hr; simpl; [constructor|].
  apply Forall_cons in Hr as [Hrm Hr]. constructor; [by apply IH|].
  apply Forall_fmap, Forall_forall. intros m' Hm'. simpl.
  rewrite Forall_forall in Hm, Hr. apply strftime_le; [done|by apply Hr|by apply Hm].
Qed.

(** X17: when the dates of the processed messages are ordinary ones (years
    1000 to 9999), the [date] fields of the document, compared as text, are
    in ascending order: sorting the records by that field changes nothing. *)
Theorem document_dates_ascend_as_text remote args choice chat doc :
  (find_chat_by_name remote (chat_name args) choice).2 = Ok chat ->
  main_messages remote args choice = Ok doc ->
  Forall (fun m => in_range (Message.date m) = true)
    (selected_history remote args chat) ->
  exists dates,
    map (get "date") doc = map (fun date => Some (VStr date)) dates
    /\ StronglySorted str_le dates.
Proof.
  intros Hchat Hmain Hr.
  pose proof (main_messages_formats _ _ _ _ _ Hchat Hmain) as Hf.
  apply formats_ids_and_dates in Hf as [_ Hdates].
  exists (map (fun m => strftime (Message.date m)) (kept (selected_history remote args chat))).
  split; [by rewrite Hdates, map_map|].
  apply dates_sorted_as_text.
  - apply kept_sorted, selected_history_sorted.
  - unfold kept. rewrite Forall_forall in Hr. apply Forall_forall.
    intros m [_ Hm]%list_elem_of_filter. by apply Hr.
Qed.

Lemma document_dates_ascend_as_text_witness :
  exists dates,
    map (get "date")
      [ [ ("message_id", VInt 1); ("chat_name", VStr "NewsCo");
          ("date", VStr "2021-01-02 00:00:00"); ("chat_id", VInt (-1001));
          ("message_type", VStr "text"); ("sender_type", VStr "channel");
          ("sender_name", VStr "NewsCo"); ("sender_username", VStr "newsco");
          ("sender_id", VInt 77); ("message", VStr "a"); ("views", VInt 5);
          ("reply_to_msg_id", VNone) ];
        [ ("message_id", VInt 2); ("chat_name", VStr "NewsCo");
          ("date", VStr "2021-01-03 00:00:00"); ("chat_id", VInt (-1001));
          ("message_type", VStr "text"); ("sender_type", VStr "channel");
          ("sender_name", VStr "NewsCo"); ("sender_username", VStr "newsco");
          ("sender_id", VInt 77); ("message", VStr "b"); ("views", VInt 5);
          ("reply_to_msg_id", VNone) ] ]
    = map (fun date => Some (VStr date)) dates
    /\ StronglySorted str_le dates.
Proof.
  apply (document_dates_ascend_as_text shuffled_client (news_args 2) 1 newsco).
  - reflexivity.
  - reflexivity.
  - vm_compute. repeat constructor.
Defined.

(** X18: for ordinary dates the [date] text has 19 characters, and two
    dates get the same text exactly when they agree to the second. *)
Theorem strftime_to_the_second a b :
  in_range a = true -> in_range b = true ->
  String.length (strftime a) = 19%nat
  /\ (strftime a = strftime b <-> to_the_second a = to_the_second b).
Proof.
  intros Ha Hb. split.
  - apply in_range_bounds in Ha as (? & ? & ? & ? & ? & ?). unfold strftime.
    rewrite !length_append, length_pad4, !length_pad2 by done. done.
  - split.
    + intros Heq. apply tuple_compare_eq. rewrite <- compare_strftime by done.
      rewrite Heq. apply string_compare_refl.
    + unfold to_the_second, strftime. by intros [= -> -> -> -> -> ->].
Qed.

Lemma strftime_to_the_second_witness :
  String.length (strftime (at_day 2)) = 19%nat
  /\ (strftime (at_day 2) = strftime (at_day 3)
      <-> to_the_second (at_day 2) = to_the_second (at_day 3)).
Proof. apply (strftime_to_the_second (at_day 2) (at_day 3)); reflexivity. Defined.

(** ** The written text *)

Lemma chars_append s1 s2 : chars (s1 +:+ s2) = chars s1 ++ chars s2.
Proof. unfold chars. induction s1 as [|c s1 IH]; simpl; [done|]. by rewrite IH. Qed.
















(** ** The offset date *)

Lemma length_chars s : length (chars s) = String.length s.
Proof. unfold chars. induction s as [|c s IH]; simpl; [done|]. by rewrite IH. Qed.

(** Turns facts about characters into facts about their codes and hands
    them to [lia]. *)
Ltac code_arith :=
  repeat match goal with
         | H : Ascii.eqb _ _ = true |- _ =>
             apply Ascii.eqb_eq in H; first [discriminate H | subst]
         | H : Ascii.eqb _ _ = false |- _ => clear H
         end;
  unfold between, digit in *;
  change (code "0") with 48 in *; change (code "1") with 49 in *;
  change (code "2") with 50 in *; change (code "3") with 51 in *;
  change (code "9") with 57 in *; change (code " ") with 32 in *;
  cbn [length] in *; lia.

Lemma between_digit c : between "0" "9" c = true -> 0 <= digit c <= 9.
Proof. intros Hc. code_arith. Qed.

Lemma match_Y_inv s y rest :
  match_Y s = Some (y, rest) ->
  0 <= y <= 9999 /\ length s = (4 + length rest)%nat.
Proof.
  unfold match_Y. destruct s as [|a [|b [|c [|d s]]]]; try done.
  destruct (between "0" "9" a) eqn:Ha; [|done].
  destruct (between "0" "9" b) eqn:Hb; [|done].
  destruct (between "0" "9" c) eqn:Hc; [|done].
  destruct (between "0" "9" d) eqn:Hd; [|done].
  cbn [andb]. intros [= <- <-]. code_arith.
Qed.

Lemma match_dash_inv s rest :
  match_dash s = Some rest -> length s = (1 + length rest)%nat.
Proof.
  unfold match_dash. destruct s as [|c s]; [done|].
  destruct (Ascii.eqb c "-"); [|done]. by intros [= <-].
Qed.

Lemma match_m_inv s m rest :
  (m, rest) ∈ match_m s ->
  1 <= m <= 12 /\ (1 + length rest <= length s <= 2 + length rest)%nat.
Proof.
  unfold match_m. destruct s as [|a [|b s]].
  - by intros ?%elem_of_nil.
  - destruct (between "1" "9" a) eqn:Ha; [|by intros ?%elem_of_nil].
    intros [= -> ->]%list_elem_of_singleton. code_arith.
  - rewrite !elem_of_app.
    destruct (Ascii.eqb a "1") eqn:Ha1, (Ascii.eqb a "0") eqn:Ha0,
      (between "0" "2" b) eqn:Hb02, (between "1" "9" b) eqn:Hb19,
      (between "1" "9" a) eqn:Ha19; cbn [andb];
      rewrite ?elem_of_nil, ?list_elem_of_singleton;
      intros Hin; decompose [or] Hin; try done; simplify_eq; code_arith.
Qed.

Lemma match_d_inv s d rest :
  match_d s = Some (d, rest) ->
  1 <= d <= 31 /\ (1 + length rest <= length s <= 2 + length rest)%nat.
Proof.
  unfold match_d. destruct s as [|a [|b s]]; [done|..].
  - destruct (between "1" "9" a) eqn:Ha; [|done]. intros [= <- <-]. code_arith.
  - destruct (Ascii.eqb a "3") eqn:Ha3, (Ascii.eqb a "0") eqn:Ha0,
      (Ascii.eqb a " ") eqn:Has,
      (between "0" "1" b) eqn:Hb01, (between "0" "9" b) eqn:Hb09,
      (between "1" "9" b) eqn:Hb19, (between "1" "2" a) eqn:Ha12,
      (between "1" "9" a) eqn:Ha19; cbn [andb]; try done;
      intros [= <- <-]; code_arith.
Qed.

Lemma match_md_inv months m d left_over :
  match_md months = Some (m, d, left_over) ->
  exists rest0 rest1,
    (m, rest0) ∈ months /\ match_dash rest0 = Some rest1
    /\ match_d rest1 = Some (d, left_over).
Proof.
  induction months as [|[m' rest0] months IH]; simpl; [done|].
  destruct (match_dash rest0) as [rest1|] eqn:Hdash.
  - destruct (match_d rest1) as [[d' rest2]|] eqn:Hd.
    + intros [= <- <- <-]. exists rest0, rest1. split; [left|done].
    + intros (r0 & r1 & ? & ?)%IH. exists r0, r1. split; [by right|done].
  - intros (r0 & r1 & ? & ?)%IH. exists r0, r1. split; [by right|done].
Qed.

(** X20: a text that [strptime] accepts as offset date is 8 to 10
    characters long and names a day of the calendar, which it returns at
    midnight: the year is 1 to 9999, the month 1 to 12, the day one that the
    month has in that year, and the time of day is zero. *)
Theorem strptime_accepts_calendar_days s d :
  strptime s = Some d ->
  1 <= year d <= 9999
  /\ 1 <= month d <= 12
  /\ 1 <= day d <= days_in_month (year d) (month d)
  /\ hour d = 0 /\ minute d = 0 /\ second d = 0 /\ microsecond d = 0
  /\ (8 <= String.length s <= 10)%nat.
Proof.
  unfold strptime. rewrite <- length_chars.
  destruct (match_Y (chars s)) as [[y rest]|] eqn:HY; [|done].
  destruct (match_dash rest) as [rest'|] eqn:Hdash; [|done].
  destruct (match_md (match_m rest')) as [[[m dd] [|? ?]]|] eqn:Hmd; [|done..].
  destruct ((1 <=? y) && (dd <=? days_in_month y m)) eqn:Hvalid; [|done].
  intros [= <-]. cbn [year month day hour minute second microsecond].
  apply match_Y_inv in HY as [Hy HlenY]. apply match_dash_inv in Hdash.
  apply match_md_inv in Hmd as (r0 & r1 & Hm & Hdash' & Hd).
  apply match_m_inv in Hm as [Hm Hlenm]. apply match_dash_inv in Hdash'.
  apply match_d_inv in Hd as [Hd Hlend]. cbn [length] in Hlend. lia.
Qed.

Lemma strptime_accepts_calendar_days_witness :
  1 <= 2020 <= 9999 /\ 1 <= 2 <= 12 /\ 1 <= 29 <= days_in_month 2020 2
  /\ 0 = 0 /\ 0 = 0 /\ 0 = 0 /\ 0 = 0
  /\ (8 <= String.length "2020-2-29" <= 10)%nat.
Proof.
  exact (strptime_accepts_calendar_days "2020-2-29"
           {| year := 2020; month := 2; day := 29; hour := 0; minute := 0;
              second := 0; microsecond := 0 |} eq_refl).
Defined.

Example strptime_samples :
  strptime "1970-01-01" = Some (midnight {| year := 1970; month := 1; day := 1;
                                            hour := 0; minute := 0; second := 0;
                                            microsecond := 0 |})
  /\ strptime "2021-1-5" = Some (midnight (at_day 5))
  /\ strptime "2021-01-05 00:00:00" = None
  /\ strptime "2021-02-29" = None
  /\ strptime "0000-01-01" = None
  /\ strptime "21-01-05" = None
  /\ strptime "" = None.
Proof. repeat split. Qed.

Lemma str_take_append k n x y :
  String.length x = k -> (k <= n)%nat ->
  str_take n (x +:+ y) = x +:+ str_take (n - k) y.
Proof.
  intros <-. unfold str_take. revert n. induction x as [|c x IH]; intros n.
  - intros _. cbn [String.length]. by rewrite Nat.sub_0_r.
  - destruct n as [|n]; cbn [String.length]; [lia|]. intros Hn.
    change (String c (substring 0 n (x +:+ y))
            = String c (x +:+ substring 0 (S n - S (String.length x)) y)).
    f_equal. apply IH. lia.
Qed.

Lemma append_empty_r s : s +:+ "" = s.
Proof.
  induction s as [|c s IH]; [done|].
  change (String c (s +:+ "") = String c s). by f_equal.
Qed.

(** The first ten characters of a [date] field. *)
Lemma str_take_strftime d :
  in_range d = true ->
  str_take 10 (strftime d)
  = pad 4 (year d) +:+ "-" +:+ pad 2 (month d) +:+ "-" +:+ pad 2 (day d).
Proof.
  intros (? & ? & ? & ? & ? & ?)%in_range_bounds. unfold strftime.
  rewrite (str_take_append 4 10) by first [by apply length_pad4|lia].
  rewrite (str_take_append 1 (10 - 4) "-") by first [done|cbn; lia].
  rewrite (str_take_append 2 (10 - 4 - 1)) by first [by apply length_pad2|cbn; lia].
  rewrite (str_take_append 1 (10 - 4 - 1 - 2) "-") by first [done|cbn; lia].
  rewrite (str_take_append 2 (10 - 4 - 1 - 2 - 1)) by first [by apply length_pad2|cbn; lia].
  change (10 - 4 - 1 - 2 - 1 - 2)%nat with 0%nat.
  assert (forall s, str_take 0 s = "") as -> by (by intros []).
  by rewrite append_empty_r.
Qed.

Lemma match_Y_app s y rest :
  match_Y s = Some (y, []) -> match_Y (s ++ rest) = Some (y, rest).
Proof.
  unfold match_Y. destruct s as [|a [|b [|c [|d s]]]]; try done. simpl.
  destruct (_ && _); [|done]. by intros [= <- ->].
Qed.

(** A year of four digits is read back from its text (checked year by
    year). *)
Lemma match_Y_check :
  Forall (fun h => Forall (fun l => match_Y (chars (pad 4 (100 * h + l)))
                                    = Some (100 * h + l, []))
                     (seqZ 0 100))
    (seqZ 10 90).
Proof. apply (bool_decide_unpack _). vm_compute. exact I. Qed.

Lemma match_Y_pad4 y rest :
  1000 <= y <= 9999 -> match_Y (chars (pad 4 y) ++ rest) = Some (y, rest).
Proof.
  intros Hy. destruct (halves_bounds y Hy) as [Hh Hl]. apply match_Y_app.
  pose proof match_Y_check as Hcheck. rewrite Forall_forall in Hcheck.
  rewrite (Z.div_mod y 100) by lia.
  specialize (Hcheck (y / 100)). rewrite Forall_forall in Hcheck.
  apply Hcheck; apply elem_of_seqZ; lia.
Qed.

(** A month and a day of two digits are read back from their text (checked
    pair by pair). *)
Lemma match_md_check :
  Forall (fun m => Forall (fun d => match_md (match_m (chars (pad 2 m +:+ "-" +:+ pad 2 d)))
                                    = Some (m, d, []))
                     (seqZ 1 31))
    (seqZ 1 12).
Proof. apply (bool_decide_unpack _). vm_compute. exact I. Qed.

(** X21: for an ordinary date, the first ten characters of the [date] field
    that [main] writes are accepted as offset date and give back the day of
    that date, at midnight. *)
Theorem strptime_reads_date_field d :
  in_range d = true ->
  day d <= days_in_month (year d) (month d) ->
  strptime (str_take 10 (strftime d)) = Some (midnight d).
Proof.
  intros Hr Hday. rewrite str_take_strftime by done.
  unfold in_range in Hr. unfold strptime.
  rewrite chars_append, match_Y_pad4 by lia.
  rewrite chars_append. simpl.
  pose proof match_md_check as Hcheck. rewrite Forall_forall in Hcheck.
  specialize (Hcheck (month d)). rewrite Forall_forall in Hcheck.
  rewrite Hcheck by (apply elem_of_seqZ; lia).
  assert ((1 <=? year d) && (day d <=? days_in_month (year d) (month d)) = true) as ->
    by lia.
  done.
Qed.

Lemma strptime_reads_date_field_witness :
  strptime (str_take 10 (strftime (at_day 5))) = Some (midnight (at_day 5)).
Proof.
  apply (strptime_reads_date_field (at_day 5)); [reflexivity|].
  vm_compute. discriminate.
Defined.
